(** * docstocode-types: entity contract, validation engine and status tables

    A shallow embedding of [types.ts], [schemas.ts] and [validators.ts].
    The JavaScript values the validators inspect are modelled as a tree of
    plain data; what the runtime supplies (regular expressions and the
    rendering of numbers) is a parameter of the development. *)

From Stdlib Require Import String Ascii List Bool PeanoNat ZArith QArith Qround.
From Stdlib Require Import Lia Permutation.
From Stdlib Require Import DecimalString.
Import ListNotations.
Close Scope Q_scope.
Open Scope string_scope.

(** ** Numbers

    A JavaScript number is NaN, an infinity or a finite double.  Every finite
    double is a rational, and [<], [>] and [===] on finite doubles are the
    order and equality of the rationals, so the finite case carries a [Q].
    The two zeros are not told apart: none of the operators used by the
    program distinguishes them. *)
Module Number.

Inductive number : Type :=
| NaN
| Infinity (negative : bool)
| Finite (q : Q).

(** [a < b] *)
Definition lt (a b : number) : bool :=
  match a, b with
  | NaN, _ | _, NaN => false
  | Infinity true, Infinity true => false
  | Infinity true, _ => true
  | _, Infinity true => false
  | Infinity false, _ => false
  | Finite _, Infinity false => true
  | Finite x, Finite y => match Qcompare x y with Lt => true | _ => false end
  end.

(** [a > b] *)
Definition gt (a b : number) : bool := lt b a.

(** [a === b] on numbers *)
Definition strict_eq (a b : number) : bool :=
  match a, b with
  | Finite x, Finite y => Qeq_bool x y
  | Infinity s, Infinity t => Bool.eqb s t
  | _, _ => false
  end.

(** SameValueZero, the equality of [Array.prototype.includes] and [Set] *)
Definition same_value_zero (a b : number) : bool :=
  match a, b with
  | NaN, NaN => true
  | _, _ => strict_eq a b
  end.

(** [a <= b]; used by statements only, the program has no such test *)
Definition le (a b : number) : bool :=
  match a, b with
  | NaN, _ | _, NaN => false
  | _, _ => negb (lt b a)
  end.

(** the number is a mathematical integer ([Number.isInteger]) *)
Definition is_integer (a : number) : bool :=
  match a with
  | Finite q => Qeq_bool q (inject_Z (Qfloor q))
  | _ => false
  end.

Definition of_Z (z : Z) : number := Finite (inject_Z z).

End Number.
Export Number.

(** ** Completions

    A call either returns or throws.  What is thrown is a [ValidationError]
    (message and error list), some other instance of [Error] (its [name] and
    [message]), or a value that is no [Error] at all. *)
Inductive exn : Type :=
| ValidationError (message : string) (errors : list string)
| Error (name message : string)
| Thrown (what : string).

Inductive completion (A : Type) : Type :=
| Normal (a : A)
| Throw (e : exn).
Arguments Normal {A} a.
Arguments Throw {A} e.

Definition bind {A B : Type} (c : completion A) (k : A -> completion B)
  : completion B :=
  match c with
  | Normal a => k a
  | Throw e => Throw e
  end.

Notation "x <- c ;; k" := (bind c (fun x => k))
  (at level 61, c at next level, right associativity).

(** ** types.ts: branded numbers *)

Definition createStoryPoints (value : number) : completion number :=
  if lt value (of_Z 1) || gt value (of_Z 21)
  then Throw (Error "Error" "Story points must be between 1 and 21")
  else Normal value.

Definition createHours (value : number) : completion number :=
  if lt value (of_Z 0)
  then Throw (Error "Error" "Hours must be non-negative")
  else Normal value.

(** ** Values

    The plain-data fragment of JavaScript values: what [JSON.parse] yields,
    and [undefined].  A string is a sequence of code units, one [ascii] each.
    An object is the list of its own enumerable properties in the order
    [Object.entries] reports them; every object and array of the tree is a
    heap object of its own (no two positions share a reference). *)
Unset Elimination Schemes.
Inductive value : Type :=
| VUndefined
| VNull
| VBoolean (b : bool)
| VNumber (n : number)
| VString (s : string)
| VArray (elements : list value)
| VObject (entries : list (string * value)).
Set Elimination Schemes.

Definition typeof (v : value) : string :=
  match v with
  | VUndefined => "undefined"
  | VNull => "object"
  | VBoolean _ => "boolean"
  | VNumber _ => "number"
  | VString _ => "string"
  | VArray _ | VObject _ => "object"
  end.

Definition is_null (v : value) : bool :=
  match v with VNull => true | _ => false end.

Definition is_undefined (v : value) : bool :=
  match v with VUndefined => true | _ => false end.

(** [Array.isArray] *)
Definition Array_isArray (v : value) : bool :=
  match v with VArray _ => true | _ => false end.

(** [typeof v === 'object' && v !== null] *)
Definition is_record (v : value) : bool :=
  (typeof v =? "object") && negb (is_null v).

(** [a === b]: primitives by value, objects and arrays by reference; a value
    of the data tree is never the same heap object as another position of the
    tree or as a literal of a schema. *)
Definition strict_equal (a b : value) : bool :=
  match a, b with
  | VUndefined, VUndefined => true
  | VNull, VNull => true
  | VBoolean x, VBoolean y => Bool.eqb x y
  | VNumber x, VNumber y => Number.strict_eq x y
  | VString x, VString y => x =? y
  | _, _ => false
  end.

(** SameValueZero on values *)
Definition same_value_zero (a b : value) : bool :=
  match a, b with
  | VNumber x, VNumber y => Number.same_value_zero x y
  | _, _ => strict_equal a b
  end.

(** [l.includes(v)] *)
Definition includes (l : list value) (v : value) : bool :=
  existsb (same_value_zero v) l.

(** [new Set(l).size] *)
Fixpoint Set_size_from (seen l : list value) : nat :=
  match l with
  | [] => 0
  | x :: r =>
      if includes seen x then Set_size_from seen r
      else S (Set_size_from (x :: seen) r)
  end.

Definition Set_size (l : list value) : nat := Set_size_from [] l.

(** decimal rendering of an array index or a length *)
Definition string_of_nat (n : nat) : string :=
  NilZero.string_of_uint (Nat.to_uint n).

(** own property lookup, [undefined] when absent *)
Fixpoint lookup {A : Type} (key : string) (l : list (string * A)) : option A :=
  match l with
  | [] => None
  | (k, a) :: r => if k =? key then Some a else lookup key r
  end.

Definition has_key {A : Type} (key : string) (l : list (string * A)) : bool :=
  existsb (fun e => fst e =? key) l.

(** the properties every plain object inherits from [Object.prototype] *)
Definition Object_prototype_keys : list string :=
  [ "constructor"; "__defineGetter__"; "__defineSetter__"; "hasOwnProperty";
    "__lookupGetter__"; "__lookupSetter__"; "isPrototypeOf";
    "propertyIsEnumerable"; "toString"; "valueOf"; "__proto__";
    "toLocaleString" ].

(** the properties an array inherits from [Array.prototype] *)
Definition Array_prototype_keys : list string :=
  [ "length"; "constructor"; "at"; "concat"; "copyWithin"; "fill"; "find";
    "findIndex"; "findLast"; "findLastIndex"; "lastIndexOf"; "pop"; "push";
    "reverse"; "shift"; "unshift"; "slice"; "sort"; "splice"; "includes";
    "indexOf"; "join"; "keys"; "entries"; "values"; "forEach"; "filter";
    "flat"; "flatMap"; "map"; "every"; "some"; "reduce"; "reduceRight";
    "toLocaleString"; "toString"; "toReversed"; "toSorted"; "toSpliced";
    "with" ].

Definition mem (s : string) (l : list string) : bool :=
  existsb (String.eqb s) l.

(** [field in obj] for a record: own or inherited.  On anything else the
    operator raises; the engine evaluates it under [is_record] only. *)
Definition has_property (field : string) (obj : value) : bool :=
  match obj with
  | VObject es => has_key field es || mem field Object_prototype_keys
  | VArray l =>
      mem field (map string_of_nat (seq 0 (length l)))
      || mem field Array_prototype_keys || mem field Object_prototype_keys
  | _ => false
  end.

(** [obj[key]] for a key no prototype defines *)
Definition get (obj : value) (key : string) : value :=
  match obj with
  | VObject es => match lookup key es with Some v => v | None => VUndefined end
  | _ => VUndefined
  end.

(** ** Schemas

    The keywords of [JSONSchema7] that the engine or the schema literals of
    this repository use.  [type] is absent, one name or a list of names.  The
    four count keywords are non-negative integers, as JSON Schema defines
    them.  [const] absent is [VUndefined].  [items] is one schema: the
    boolean and the tuple form, which the engine either skips or reads as a
    keyword-free schema, appear in no literal.  [additionalProperties] and
    [format] are declared by the literals and read by no function. *)
Inductive TypeKeyword : Type :=
| TypeAbsent
| TypeName (t : string)
| TypeList (ts : list string).

Unset Elimination Schemes.
Inductive Schema : Type := mkSchema {
  type : TypeKeyword;
  required : option (list string);
  properties : option (list (string * Schema));
  items : option Schema;
  minLength : option nat;
  maxLength : option nat;
  pattern : option string;
  format : option string;
  minimum : option number;
  maximum : option number;
  enum : option (list value);
  const : value;
  minItems : option nat;
  maxItems : option nat;
  uniqueItems : bool;
  additionalProperties : option bool
}.
Set Elimination Schemes.

(** a schema object with no keyword at all: [{}] *)
Definition no_keywords : Schema :=
  {| type := TypeAbsent; required := None; properties := None; items := None;
     minLength := None; maxLength := None; pattern := None; format := None;
     minimum := None; maximum := None; enum := None; const := VUndefined;
     minItems := None; maxItems := None; uniqueItems := false;
     additionalProperties := None |}.

(** [{ type: 'string', minLength, maxLength, pattern, format }] *)
Definition string_schema (minL maxL : option nat) (pat fmt : option string)
  : Schema :=
  {| type := TypeName "string"; required := None; properties := None;
     items := None; minLength := minL; maxLength := maxL; pattern := pat;
     format := fmt; minimum := None; maximum := None; enum := None;
     const := VUndefined; minItems := None; maxItems := None;
     uniqueItems := false; additionalProperties := None |}.

(** [{ type: ['string', 'null'], minLength }] *)
Definition nullable_string_schema (minL : option nat) : Schema :=
  {| type := TypeList ["string"; "null"]; required := None;
     properties := None; items := None; minLength := minL; maxLength := None;
     pattern := None; format := None; minimum := None; maximum := None;
     enum := None; const := VUndefined; minItems := None; maxItems := None;
     uniqueItems := false; additionalProperties := None |}.

(** [{ const: c }] *)
Definition const_schema (c : string) : Schema :=
  {| type := TypeAbsent; required := None; properties := None; items := None;
     minLength := None; maxLength := None; pattern := None; format := None;
     minimum := None; maximum := None; enum := None; const := VString c;
     minItems := None; maxItems := None; uniqueItems := false;
     additionalProperties := None |}.

(** [{ type: 'boolean' }] *)
Definition boolean_schema : Schema :=
  {| type := TypeName "boolean"; required := None; properties := None;
     items := None; minLength := None; maxLength := None; pattern := None;
     format := None; minimum := None; maximum := None; enum := None;
     const := VUndefined; minItems := None; maxItems := None;
     uniqueItems := false; additionalProperties := None |}.

(** [{ type: 'array', items, minItems, uniqueItems }] *)
Definition array_schema (its : Schema) (minI : option nat) (unique : bool)
  : Schema :=
  {| type := TypeName "array"; required := None; properties := None;
     items := Some its; minLength := None; maxLength := None; pattern := None;
     format := None; minimum := None; maximum := None; enum := None;
     const := VUndefined; minItems := minI; maxItems := None;
     uniqueItems := unique; additionalProperties := None |}.

(** [{ type: 'object', required, properties, additionalProperties: false }] *)
Definition object_schema (req : list string) (props : list (string * Schema))
  : Schema :=
  {| type := TypeName "object"; required := Some req;
     properties := Some props; items := None; minLength := None;
     maxLength := None; pattern := None; format := None; minimum := None;
     maximum := None; enum := None; const := VUndefined; minItems := None;
     maxItems := None; uniqueItems := false;
     additionalProperties := Some false |}.

(** [schema.type === t] *)
Definition type_is (schema : Schema) (t : string) : bool :=
  match type schema with
  | TypeName u => u =? t
  | _ => false
  end.

(** [typeof data !== schema.type]: a string is never identical to a list *)
Definition typeof_differs (data : value) (schema : Schema) : bool :=
  match type schema with
  | TypeName u => negb (typeof data =? u)
  | _ => true
  end.

(** the text of [schema.type] inside a template literal *)
Definition type_text (schema : Schema) : string :=
  match type schema with
  | TypeAbsent => "undefined"
  | TypeName u => u
  | TypeList ts => String.concat "," ts
  end.

(** [Array.isArray(schema.type) && schema.type.includes('null')] *)
Definition allows_null (schema : Schema) : bool :=
  match type schema with
  | TypeList ts => mem "null" ts
  | _ => false
  end.

(** [Array.isArray(schema.type) ? schema.type.find(t => t !== 'null')
                                : schema.type] *)
Definition expectedType (schema : Schema) : option string :=
  match type schema with
  | TypeAbsent => None
  | TypeName u => Some u
  | TypeList ts => find (fun t => negb (t =? "null")) ts
  end.

(** [schema.properties[key]].  A key that [Object.prototype] defines and the
    property map does not yields a built-in object; read as a schema it has
    no keyword. *)
Definition properties_get (props : list (string * Schema)) (key : string)
  : option Schema :=
  match lookup key props with
  | Some s => Some s
  | None => if mem key Object_prototype_keys then Some no_keywords else None
  end.

Record ValidationResult : Type := mkResult {
  valid : bool;
  errors : list string
}.

(** [{ valid: errors.length === 0, errors }] *)
Definition result_of (errs : list string) : ValidationResult :=
  {| valid := match errs with [] => true | _ => false end; errors := errs |}.

(** monadic traversals: [for (const [key, value] of entries)] and
    [for (let i = 0; i < value.length; i++)], collecting what each step
    pushes onto the error list *)
Definition for_entries {A : Type}
  (step : string -> A -> completion (list string))
  : list (string * A) -> completion (list string) :=
  fix each (es : list (string * A)) : completion (list string) :=
    match es with
    | [] => Normal []
    | e :: rest =>
        here <- step (fst e) (snd e) ;;
        more <- each rest ;;
        Normal (here ++ more)%list
    end.

Definition for_elements {A : Type}
  (step : nat -> A -> completion (list string))
  : list A -> nat -> completion (list string) :=
  fix each (l : list A) (i : nat) : completion (list string) :=
    match l with
    | [] => Normal []
    | x :: rest =>
        here <- step i x ;;
        more <- each rest (S i) ;;
        Normal (here ++ more)%list
    end.

(** [l.map(f)] for an [f] that may raise: the first failure wins *)
Definition for_each {A B : Type} (f : A -> completion B)
  : list A -> completion (list B) :=
  fix each (l : list A) : completion (list B) :=
    match l with
    | [] => Normal []
    | x :: rest =>
        here <- f x ;;
        more <- each rest ;;
        Normal (here :: more)
    end.

(** ** types.ts: constants and transition tables *)

Definition PRIORITIES : list string := ["low"; "medium"; "high"; "critical"].
Definition FEATURE_STATUSES : list string :=
  ["backlog"; "planning"; "in-progress"; "testing"; "completed"].
Definition BUG_STATUSES : list string :=
  ["open"; "in-progress"; "resolved"; "closed"; "wont-fix"].
Definition TASK_STATUSES : list string :=
  ["todo"; "in-progress"; "blocked"; "completed"].
Definition SEVERITIES : list string := ["low"; "medium"; "high"; "critical"].

Definition FEATURE_STATUS_TRANSITIONS : list (string * list string) :=
  [ ("backlog", ["planning"]);
    ("planning", ["in-progress"; "backlog"]);
    ("in-progress", ["testing"; "planning"]);
    ("testing", ["completed"; "in-progress"]);
    ("completed", []) ].

Definition BUG_STATUS_TRANSITIONS : list (string * list string) :=
  [ ("open", ["in-progress"; "wont-fix"]);
    ("in-progress", ["resolved"; "open"]);
    ("resolved", ["closed"; "open"]);
    ("closed", ["open"]);
    ("wont-fix", ["open"]) ].

Definition TASK_STATUS_TRANSITIONS : list (string * list string) :=
  [ ("todo", ["in-progress"]);
    ("in-progress", ["blocked"; "completed"; "todo"]);
    ("blocked", ["in-progress"; "todo"]);
    ("completed", []) ].

(** the fields of a [ProjectItem] that the transition checks read *)
Record ProjectItem : Type := mkItem {
  item_type : string;
  item_status : string
}.

Definition isFeature (item : ProjectItem) : bool := item_type item =? "feature".
Definition isBug (item : ProjectItem) : bool := item_type item =? "bug".
Definition isTask (item : ProjectItem) : bool := item_type item =? "task".

(** ** schemas.ts *)

(** [{ ...base, key: v }] on a property list: an existing key keeps its place *)
Fixpoint assign {A : Type} (key : string) (a : A) (l : list (string * A))
  : list (string * A) :=
  match l with
  | [] => [(key, a)]
  | (k, b) :: r => if k =? key then (k, a) :: r else (k, b) :: assign key a r
  end.

Definition spread {A : Type} (base more : list (string * A))
  : list (string * A) :=
  fold_left (fun acc e => assign (fst e) (snd e) acc) more base.

(** [{ ...base, properties: props, required: req }] *)
Definition extend (base : Schema) (props : list (string * Schema))
  (req : list string) : Schema :=
  {| type := type base; required := Some req; properties := Some props;
     items := items base; minLength := minLength base;
     maxLength := maxLength base; pattern := pattern base;
     format := format base; minimum := minimum base;
     maximum := maximum base; enum := enum base; const := const base;
     minItems := minItems base; maxItems := maxItems base;
     uniqueItems := uniqueItems base;
     additionalProperties := additionalProperties base |}.

Definition createEnumSchema (values : list string) : Schema :=
  {| type := TypeName "string"; required := None; properties := None;
     items := None; minLength := None; maxLength := None; pattern := None;
     format := None; minimum := None; maximum := None;
     enum := Some (map VString values); const := VUndefined;
     minItems := None; maxItems := None; uniqueItems := false;
     additionalProperties := None |}.

Definition id_pattern : string := "^[a-zA-Z0-9_-]+$".
Definition version_pattern : string := "^\d+\.\d+\.\d+(-[a-zA-Z0-9]+)?$".

Definition BASE_ITEM_properties : list (string * Schema) :=
  [ ("id", string_schema (Some 1) None (Some id_pattern) None);
    ("title", string_schema (Some 1) (Some 200) None None);
    ("description", string_schema None (Some 2000) None None);
    ("priority", createEnumSchema PRIORITIES);
    ("createdAt", string_schema None None None (Some "date-time"));
    ("updatedAt", string_schema None None None (Some "date-time")) ].

Definition BASE_ITEM_required : list string :=
  ["id"; "title"; "description"; "status"; "priority"; "createdAt";
   "updatedAt"].

Definition BASE_ITEM_SCHEMA : Schema :=
  object_schema BASE_ITEM_required BASE_ITEM_properties.

Definition FEATURE_SCHEMA : Schema :=
  extend BASE_ITEM_SCHEMA
    (spread BASE_ITEM_properties
       [ ("type", const_schema "feature");
         ("status", createEnumSchema FEATURE_STATUSES);
         ("epic", nullable_string_schema (Some 1));
         ("acceptanceCriteria",
           array_schema (string_schema (Some 1) None None None) (Some 1) false)
       ])
    (BASE_ITEM_required ++ ["type"; "acceptanceCriteria"]).

Definition BUG_SCHEMA : Schema :=
  extend BASE_ITEM_SCHEMA
    (spread BASE_ITEM_properties
       [ ("type", const_schema "bug");
         ("status", createEnumSchema BUG_STATUSES);
         ("severity", createEnumSchema SEVERITIES);
         ("reproducible", boolean_schema);
         ("stepsToReproduce",
           array_schema (string_schema (Some 1) None None None) (Some 1) false);
         ("environment", string_schema (Some 1) None None None);
         ("resolution", nullable_string_schema (Some 1)) ])
    (BASE_ITEM_required
     ++ ["type"; "severity"; "reproducible"; "stepsToReproduce";
         "environment"]).

Definition TASK_SCHEMA : Schema :=
  extend BASE_ITEM_SCHEMA
    (spread BASE_ITEM_properties
       [ ("type", const_schema "task");
         ("status", createEnumSchema TASK_STATUSES);
         ("subtasks",
           {| type := TypeName "array"; required := None; properties := None;
              items := Some (string_schema None None (Some id_pattern) None);
              minLength := None; maxLength := None; pattern := None;
              format := None; minimum := None; maximum := None; enum := None;
              const := VUndefined; minItems := None; maxItems := None;
              uniqueItems := true; additionalProperties := None |}) ])
    (BASE_ITEM_required ++ ["type"; "subtasks"]).

Definition items_only (its : Schema) : Schema :=
  {| type := TypeName "array"; required := None; properties := None;
     items := Some its; minLength := None; maxLength := None; pattern := None;
     format := None; minimum := None; maximum := None; enum := None;
     const := VUndefined; minItems := None; maxItems := None;
     uniqueItems := false; additionalProperties := None |}.

Definition PROJECT_DATA_SCHEMA : Schema :=
  object_schema ["features"; "bugs"; "tasks"; "metadata"]
    [ ("features", items_only FEATURE_SCHEMA);
      ("bugs", items_only BUG_SCHEMA);
      ("tasks", items_only TASK_SCHEMA);
      ("metadata",
        object_schema ["projectName"; "version"; "lastUpdated"]
          [ ("projectName", string_schema (Some 1) (Some 100) None None);
            ("version", string_schema None None (Some version_pattern) None);
            ("lastUpdated", string_schema None None None (Some "date-time"))
          ]) ].

(** the three entity kinds and their schemas in the [SCHEMAS] registry *)
Inductive Kind : Type := Feature | Bug | Task.

Definition schema_of (k : Kind) : Schema :=
  match k with
  | Feature => FEATURE_SCHEMA
  | Bug => BUG_SCHEMA
  | Task => TASK_SCHEMA
  end.

(** ** A sample runtime and the records of the test suite

    [sample_RegExp] compiles the two patterns of [schemas.ts] and rejects
    every other text; [sample_Number_toString] is exact on NaN, the
    infinities and the integers below 10^21, which is all the records below
    contain.  They instantiate the runtime in the concrete runs at the end. *)
Module Sample.

Definition is_digit (c : ascii) : bool :=
  let n := nat_of_ascii c in (48 <=? n)%nat && (n <=? 57)%nat.

Definition is_alnum (c : ascii) : bool :=
  let n := nat_of_ascii c in
  is_digit c || ((65 <=? n)%nat && (n <=? 90)%nat)
  || ((97 <=? n)%nat && (n <=? 122)%nat).

Definition is_id_char (c : ascii) : bool :=
  is_alnum c || (nat_of_ascii c =? 95)%nat || (nat_of_ascii c =? 45)%nat.

(** [^[a-zA-Z0-9_-]+$] *)
Definition test_id (s : string) : bool :=
  negb (s =? "") && forallb is_id_char (list_ascii_of_string s).

(** drops the longest prefix of characters satisfying [p]; [None] when that
    prefix is empty *)
Fixpoint some_of (p : ascii -> bool) (l : list ascii) (seen : bool)
  : option (list ascii) :=
  match l with
  | c :: r => if p c then some_of p r true
              else if seen then Some l else None
  | [] => if seen then Some [] else None
  end.

Definition dot : ascii := "."%char.
Definition dash : ascii := "-"%char.

(** [^\d+\.\d+\.\d+(-[a-zA-Z0-9]+)?$] *)
Definition test_version (s : string) : bool :=
  match some_of is_digit (list_ascii_of_string s) false with
  | Some (c1 :: r1) =>
      Ascii.eqb c1 dot &&
      match some_of is_digit r1 false with
      | Some (c2 :: r2) =>
          Ascii.eqb c2 dot &&
          match some_of is_digit r2 false with
          | Some [] => true
          | Some (c3 :: r3) =>
              Ascii.eqb c3 dash &&
              match some_of is_alnum r3 false with
              | Some [] => true
              | _ => false
              end
          | None => false
          end
      | _ => false
      end
  | _ => false
  end.

Definition sample_RegExp (p : string) : string + (string -> bool) :=
  if p =? id_pattern then inr test_id
  else if p =? version_pattern then inr test_version
  else inl ("Invalid regular expression: /" ++ p ++ "/").

Definition string_of_Z (z : Z) : string :=
  NilZero.string_of_int (Z.to_int z).

Definition sample_Number_toString (n : number) : string :=
  match n with
  | NaN => "NaN"
  | Infinity true => "-Infinity"
  | Infinity false => "Infinity"
  | Finite q =>
      if Number.is_integer n then string_of_Z (Qnum q / Zpos (Qden q))
      else string_of_Z (Qnum q) ++ "/" ++ string_of_Z (Zpos (Qden q))
  end.

Definition base_fields (id type status priority : string)
  : list (string * value) :=
  [ ("id", VString id);
    ("title", VString "Test");
    ("description", VString "Test description");
    ("type", VString type);
    ("status", VString status);
    ("priority", VString priority) ].

Definition stamps : list (string * value) :=
  [ ("tags", VArray []);
    ("createdAt", VString "2023-01-01T00:00:00Z");
    ("updatedAt", VString "2023-01-01T00:00:00Z") ].

Definition featureFields : list (string * value) :=
  base_fields "f1" "feature" "backlog" "medium" ++ stamps
  ++ [("acceptanceCriteria", VArray [VString "Must work"])].

Definition bugFields : list (string * value) :=
  base_fields "b1" "bug" "open" "high"
  ++ [ ("severity", VString "critical");
       ("reproducible", VBoolean true);
       ("stepsToReproduce", VArray [VString "Step 1"]);
       ("environment", VString "Production") ]
  ++ stamps.

Definition taskFields : list (string * value) :=
  base_fields "t1" "task" "todo" "low" ++ [("subtasks", VArray [])] ++ stamps.

Definition validFeature : value := VObject featureFields.
Definition validBug : value := VObject bugFields.
Definition validTask : value := VObject taskFields.

(** [{ ...validFeature, epic: '' }] *)
Definition featureWithEmptyEpic : value :=
  VObject (assign "epic" (VString "") featureFields).

(** [{ ...validFeature, acceptanceCriteria: [] }] *)
Definition featureWithoutCriteria : value :=
  VObject (assign "acceptanceCriteria" (VArray []) featureFields).

(** a runtime whose [RegExp] rejects every pattern *)
Definition failing_RegExp (p : string) : string + (string -> bool) :=
  inl ("Invalid regular expression: /" ++ p ++ "/").

(** the project aggregate of the test suite *)
Definition validProjectData : list (string * value) :=
  [ ("features", VArray [validFeature]);
    ("bugs", VArray [validBug]);
    ("tasks", VArray [validTask]);
    ("metadata",
      VObject [ ("projectName", VString "Test Project");
                ("version", VString "1.0.0");
                ("lastUpdated", VString "2023-01-01T00:00:00Z") ]) ].

(** [{ toString: 1 }], an object with a [toString] property of its own *)
Definition withoutText : value := VObject [("toString", VNumber (of_Z 1))].

(** [{ type: 'string', minLength: 5, maxLength: 2, pattern: ID_PATTERN,
       enum: [{ toString: 1 }] }] *)
Definition enumWithoutText : Schema :=
  {| type := TypeName "string"; required := None; properties := None;
     items := None; minLength := Some 5; maxLength := Some 2;
     pattern := Some id_pattern; format := None; minimum := None;
     maximum := None; enum := Some [withoutText]; const := VUndefined;
     minItems := None; maxItems := None; uniqueItems := false;
     additionalProperties := None |}.

(** [{ type: 'number', minimum: 0 }] *)
Definition hoursSchema : Schema :=
  {| type := TypeName "number"; required := None; properties := None;
     items := None; minLength := None; maxLength := None; pattern := None;
     format := None; minimum := Some (of_Z 0); maximum := None; enum := None;
     const := VUndefined; minItems := None; maxItems := None;
     uniqueItems := false; additionalProperties := None |}.

(** the schema of a task's [subtasks] *)
Definition subtasksSchema : Schema :=
  match lookup "subtasks"
          (match properties TASK_SCHEMA with Some ps => ps | None => [] end)
  with
  | Some s => s
  | None => no_keywords
  end.

End Sample.

(** ** validators.ts: the engine *)
Section Engine.

(** [new RegExp(pattern)]: the message of the SyntaxError it raises, or the
    compiled expression's [test] *)
Variable RegExp : string -> string + (string -> bool).

(** [Number.prototype.toString] *)
Variable Number_toString : number -> string.

(** the TypeError of a conversion that finds no primitive *)
Definition cannot_convert : exn :=
  Error "TypeError" "Cannot convert object to primitive value".

(** ToString, the text of a value inside a template literal.  A plain
    object answers through [Object.prototype.toString] unless it has an own
    [toString] property: a data property is not callable, [valueOf] then
    yields no primitive either, and the conversion raises a TypeError.  An
    array answers through [join], which renders [null] and [undefined]
    elements as the empty string and converts the others in order. *)
Fixpoint to_string (v : value) : completion string :=
  match v with
  | VUndefined => Normal "undefined"
  | VNull => Normal "null"
  | VBoolean b => Normal (if b then "true" else "false")
  | VNumber n => Normal (Number_toString n)
  | VString s => Normal s
  | VArray l =>
      parts <- for_each (fun x => match x with
                                  | VUndefined | VNull => Normal ""
                                  | _ => to_string x
                                  end) l ;;
      Normal (String.concat "," parts)
  | VObject es =>
      if has_key "toString" es then Throw cannot_convert
      else Normal "[object Object]"
  end.

(** [l.join(sep)] *)
Definition join (sep : string) (l : list value) : completion string :=
  parts <- for_each (fun x => match x with
                              | VUndefined | VNull => Normal ""
                              | _ => to_string x
                              end) l ;;
  Normal (String.concat sep parts).

(** the two string-length checks and the pattern check of [validateField] *)
Definition string_checks (s : string) (schema : Schema) (fieldName : string)
  : completion (list string) :=
  let short :=
    match minLength schema with
    | Some m => if (String.length s <? m)%nat
                then [fieldName ++ ": Minimum length is " ++ string_of_nat m]
                else []
    | None => []
    end in
  let long :=
    match maxLength schema with
    | Some m => if (m <? String.length s)%nat
                then [fieldName ++ ": Maximum length is " ++ string_of_nat m]
                else []
    | None => []
    end in
  match pattern schema with
  | Some p =>
      match RegExp p with
      | inl msg => Throw (Error "SyntaxError" msg)
      | inr test =>
          Normal (short ++ long ++
                  (if test s then []
                   else [(fieldName ++ ": Does not match pattern "
                          ++ p)%string]))%list
      end
  | None => Normal (short ++ long)%list
  end.

Definition number_checks (n : number) (schema : Schema) (fieldName : string)
  : list string :=
  (match minimum schema with
   | Some m => if Number.lt n m
               then [(fieldName ++ ": Minimum value is "
                      ++ Number_toString m)%string]
               else []
   | None => []
   end ++
   match maximum schema with
   | Some m => if Number.gt n m
               then [(fieldName ++ ": Maximum value is "
                      ++ Number_toString m)%string]
               else []
   | None => []
   end)%list.

Definition enum_check (v : value) (schema : Schema) (fieldName : string)
  : completion (list string) :=
  match enum schema with
  | Some allowed =>
      if includes allowed v then Normal []
      else
        listed <- join ", " allowed ;;
        Normal [fieldName ++ ": Must be one of " ++ listed]
  | None => Normal []
  end.

Definition const_check (v : value) (schema : Schema) (fieldName : string)
  : completion (list string) :=
  if negb (is_undefined (const schema)) && negb (strict_equal v (const schema))
  then
    text <- to_string (const schema) ;;
    Normal [fieldName ++ ": Must be " ++ text]
  else Normal [].

(** minItems, maxItems and uniqueItems *)
Definition array_checks (l : list value) (schema : Schema)
  (fieldName : string) : list string :=
  (match minItems schema with
   | Some m => if (length l <? m)%nat
               then [(fieldName ++ ": Minimum items is "
                      ++ string_of_nat m)%string]
               else []
   | None => []
   end ++
   match maxItems schema with
   | Some m => if (m <? length l)%nat
               then [(fieldName ++ ": Maximum items is "
                      ++ string_of_nat m)%string]
               else []
   | None => []
   end ++
   (if uniqueItems schema
    then if (Set_size l =? length l)%nat then []
         else [(fieldName ++ ": Items must be unique")%string]
    else []))%list.

(** the required-field loop of [validateSchema] *)
Definition required_errors (data : value) (schema : Schema) : list string :=
  match required schema with
  | Some req =>
      flat_map (fun field =>
                  if has_property field data then []
                  else ["Missing required field: " ++ field]) req
  | None => []
  end.

(** the body of the property loop of [validateSchema]: the errors of one
    entry of the record *)
Definition check_property
  (validateField : value -> Schema -> string -> completion ValidationResult)
  (schema : Schema) (key : string) (v : value) : completion (list string) :=
  match properties schema with
  | Some props =>
      match properties_get props key with
      | Some fieldSchema =>
          fieldResult <- validateField v fieldSchema key ;;
          Normal (errors fieldResult)
      | None => Normal []
      end
  | None => Normal []
  end.

(** [validateSchema], with the field validator it calls as a parameter *)
Definition validateSchema_with
  (validateField : value -> Schema -> string -> completion ValidationResult)
  (data : value) (schema : Schema) : completion ValidationResult :=
  if type_is schema "object" && is_record data then
    found <- match data with
             | VObject es =>
                 for_entries (check_property validateField schema) es
             | VArray l =>
                 for_elements
                   (fun i => check_property validateField schema
                               (string_of_nat i)) l 0
             | _ => Normal []
             end ;;
    Normal (result_of (required_errors data schema ++ found))
  else
    match type schema with
    | TypeAbsent => Normal (result_of [])
    | _ =>
        if typeof_differs data schema
        then Normal (result_of ["Expected type " ++ type_text schema
                                 ++ ", got " ++ typeof data])
        else Normal (result_of [])
    end.

(** the type check of [validateField]: the message of the mismatch *)
Definition type_mismatch (v : value) (schema : Schema) (fieldName : string)
  : option string :=
  match expectedType schema with
  | Some t =>
      if (t =? "array") && negb (Array_isArray v)
      then Some (fieldName ++ ": Expected array, got " ++ typeof v)
      else if negb (t =? "array") && negb (typeof v =? t)
      then Some (fieldName ++ ": Expected " ++ t ++ ", got " ++ typeof v)
      else None
  | None => None
  end.

(** the block [schema.type === 'string' && typeof value === 'string'] *)
Definition string_part (v : value) (schema : Schema) (fieldName : string)
  : completion (list string) :=
  match v with
  | VString s =>
      if type_is schema "string" then string_checks s schema fieldName
      else Normal []
  | _ => Normal []
  end.

(** the block [schema.type === 'number' && typeof value === 'number'] *)
Definition number_part (v : value) (schema : Schema) (fieldName : string)
  : list string :=
  match v with
  | VNumber n =>
      if type_is schema "number" then number_checks n schema fieldName
      else []
  | _ => []
  end.

(** the block [schema.type === 'array' && Array.isArray(value)] *)
Definition array_part
  (validateField : value -> Schema -> string -> completion ValidationResult)
  (v : value) (schema : Schema) (fieldName : string)
  : completion (list string) :=
  match v with
  | VArray l =>
      if type_is schema "array" then
        elems <- match items schema with
                 | Some itemSchema =>
                     for_elements
                       (fun i x =>
                          itemResult <-
                            validateField x itemSchema
                              (fieldName ++ "[" ++ string_of_nat i ++ "]") ;;
                          Normal (errors itemResult)) l 0
                 | None => Normal []
                 end ;;
        Normal (array_checks l schema fieldName ++ elems)%list
      else Normal []
  | _ => Normal []
  end.

(** the block for nested objects *)
Definition object_part
  (validateField : value -> Schema -> string -> completion ValidationResult)
  (v : value) (schema : Schema) (fieldName : string)
  : completion (list string) :=
  if type_is schema "object" && is_record v then
    nestedResult <- validateSchema_with validateField v schema ;;
    Normal (map (fun error => fieldName ++ "." ++ error) (errors nestedResult))
  else Normal [].

(** [validateField], with its recursive calls as a parameter *)
Definition validateField_with
  (validateField : value -> Schema -> string -> completion ValidationResult)
  (v : value) (schema : Schema) (fieldName : string)
  : completion ValidationResult :=
  if allows_null schema && is_null v then Normal (mkResult true [])
  else
    match type_mismatch v schema fieldName with
    | Some msg => Normal (mkResult false [msg])
    | None =>
        strings <- string_part v schema fieldName ;;
        let numbers := number_part v schema fieldName in
        enums <- enum_check v schema fieldName ;;
        consts <- const_check v schema fieldName ;;
        arrays <- array_part validateField v schema fieldName ;;
        nested <- object_part validateField v schema fieldName ;;
        Normal (result_of
                  (strings ++ numbers ++ enums ++ consts ++ arrays ++ nested))
    end.

Fixpoint validateField (v : value) (schema : Schema) (fieldName : string)
  {struct v} : completion ValidationResult :=
  validateField_with validateField v schema fieldName.

Definition validateSchema (data : value) (schema : Schema)
  : completion ValidationResult :=
  validateSchema_with validateField data schema.

Definition validate (data : value) (schema : Schema)
  : completion ValidationResult :=
  if negb (type_is schema "object")
  then validateField data schema "value"
  else validateSchema data schema.

(** ** validators.ts: the typed validators *)

Definition throw_unless_valid (message : string) (result : ValidationResult)
  : completion bool :=
  if negb (valid result)
  then Throw (ValidationError message (errors result))
  else Normal true.

Definition validateFeature (data : value) : completion bool :=
  result <- validate data FEATURE_SCHEMA ;;
  throw_unless_valid "Feature validation failed" result.

Definition validateBug (data : value) : completion bool :=
  result <- validate data BUG_SCHEMA ;;
  throw_unless_valid "Bug validation failed" result.

Definition validateTask (data : value) : completion bool :=
  result <- validate data TASK_SCHEMA ;;
  throw_unless_valid "Task validation failed" result.

Definition validateProjectData (data : value) : completion bool :=
  result <- validate data PROJECT_DATA_SCHEMA ;;
  throw_unless_valid "Project data validation failed" result.

(** [TABLE[from].includes(to)].  A key the table lacks yields [undefined],
    or a built-in when [Object.prototype] defines it; calling [includes] on
    either raises a TypeError. *)
Definition table_includes (table : list (string * list string))
  (from to : string) : completion bool :=
  match lookup from table with
  | Some next => Normal (mem to next)
  | None =>
      if mem from Object_prototype_keys
      then Throw (Error "TypeError" "includes is not a function")
      else Throw (Error "TypeError"
                    "Cannot read properties of undefined (reading 'includes')")
  end.

Definition canTransitionFeatureStatus (from to : string) : completion bool :=
  table_includes FEATURE_STATUS_TRANSITIONS from to.

Definition canTransitionBugStatus (from to : string) : completion bool :=
  table_includes BUG_STATUS_TRANSITIONS from to.

Definition canTransitionTaskStatus (from to : string) : completion bool :=
  table_includes TASK_STATUS_TRANSITIONS from to.

Definition canTransitionStatus (item : ProjectItem) (newStatus : string)
  : completion bool :=
  if isFeature item then canTransitionFeatureStatus (item_status item) newStatus
  else if isBug item then canTransitionBugStatus (item_status item) newStatus
  else if isTask item then canTransitionTaskStatus (item_status item) newStatus
  else Normal false.

Definition invalid_type_message (tag : value) : completion string :=
  text <- to_string tag ;;
  Normal ("Expected 'feature', 'bug', or 'task', got '" ++ text ++ "'").

Definition validateProjectItem (data : value) : completion bool :=
  if negb (typeof data =? "object") || is_null data
  then Throw (ValidationError "Invalid project item" ["Expected object"])
  else
    let tag := get data "type" in
    if strict_equal tag (VString "feature") then validateFeature data
    else if strict_equal tag (VString "bug") then validateBug data
    else if strict_equal tag (VString "task") then validateTask data
    else
      message <- invalid_type_message tag ;;
      Throw (ValidationError "Invalid project item type" [message]).

(** what the [tryValidate*] functions return: [{ valid, errors, data? }] *)
Record SafeResult : Type := mkSafe {
  outcome : ValidationResult;
  data : option value
}.

(** the [try { ...; return success } catch (error) { ... }] the three
    [tryValidate*] functions share *)
Definition try_catch (run : completion bool) (input : value) : SafeResult :=
  match run with
  | Normal _ => mkSafe (mkResult true []) (Some input)
  | Throw (ValidationError _ errs) => mkSafe (mkResult false errs) None
  | Throw (Error _ message) => mkSafe (mkResult false [message]) None
  | Throw (Thrown _) => mkSafe (mkResult false ["Unknown error"]) None
  end.

Definition tryValidateFeature (input : value) : SafeResult :=
  try_catch (validateFeature input) input.

Definition tryValidateBug (input : value) : SafeResult :=
  try_catch (validateBug input) input.

Definition tryValidateTask (input : value) : SafeResult :=
  try_catch (validateTask input) input.

(** ** Notions the statements below use *)

(** [delete obj[key]] on the entry list *)
Definition remove_key (key : string) (es : list (string * value))
  : list (string * value) :=
  filter (fun e => negb (fst e =? key)) es.

(** every [pattern] of the schema, at any depth, is accepted by [RegExp] *)
Fixpoint patterns_compile (schema : Schema) : bool :=
  match schema with
  | mkSchema _ _ props its _ _ pat _ _ _ _ _ _ _ _ _ =>
      match pat with
      | Some p => match RegExp p with inr _ => true | inl _ => false end
      | None => true
      end
      && match its with
         | Some s => patterns_compile s
         | None => true
         end
      && match props with
         | Some ps => forallb (fun e => patterns_compile (snd e)) ps
         | None => true
         end
  end.

(** the conversion of [v] to text returns *)
Definition converts_to_text (v : value) : bool :=
  match to_string v with
  | Normal _ => true
  | Throw _ => false
  end.

(** every [enum] and [const] literal of the schema, at any depth, can be
    written into a message *)
Fixpoint literals_convert (schema : Schema) : bool :=
  match schema with
  | mkSchema _ _ props its _ _ _ _ _ _ allowed literal _ _ _ _ =>
      match allowed with
      | Some l =>
          match join ", " l with
          | Normal _ => true
          | Throw _ => false
          end
      | None => true
      end
      && converts_to_text literal
      && match its with
         | Some s => literals_convert s
         | None => true
         end
      && match props with
         | Some ps => forallb (fun e => literals_convert (snd e)) ps
         | None => true
         end
  end.

(** [schema.properties[key]] as declared, [None] when absent *)
Definition property (schema : Schema) (key : string) : option Schema :=
  match properties schema with
  | Some props => lookup key props
  | None => None
  end.

(** the required list of a schema, empty when the keyword is absent *)
Definition required_names (schema : Schema) : list string :=
  match required schema with Some req => req | None => [] end.

Definition statuses (k : Kind) : list string :=
  match k with
  | Feature => FEATURE_STATUSES
  | Bug => BUG_STATUSES
  | Task => TASK_STATUSES
  end.

Definition canTransitionKind (k : Kind) : string -> string -> completion bool :=
  match k with
  | Feature => canTransitionFeatureStatus
  | Bug => canTransitionBugStatus
  | Task => canTransitionTaskStatus
  end.

(** The transition tables as the specification lists them, one rule per
    arrow. *)
Inductive spec_transition : Kind -> string -> string -> Prop :=
| F_backlog_planning : spec_transition Feature "backlog" "planning"
| F_planning_in_progress : spec_transition Feature "planning" "in-progress"
| F_planning_backlog : spec_transition Feature "planning" "backlog"
| F_in_progress_testing : spec_transition Feature "in-progress" "testing"
| F_in_progress_planning : spec_transition Feature "in-progress" "planning"
| F_testing_completed : spec_transition Feature "testing" "completed"
| F_testing_in_progress : spec_transition Feature "testing" "in-progress"
| B_open_in_progress : spec_transition Bug "open" "in-progress"
| B_open_wont_fix : spec_transition Bug "open" "wont-fix"
| B_in_progress_resolved : spec_transition Bug "in-progress" "resolved"
| B_in_progress_open : spec_transition Bug "in-progress" "open"
| B_resolved_closed : spec_transition Bug "resolved" "closed"
| B_resolved_open : spec_transition Bug "resolved" "open"
| B_closed_open : spec_transition Bug "closed" "open"
| B_wont_fix_open : spec_transition Bug "wont-fix" "open"
| T_todo_in_progress : spec_transition Task "todo" "in-progress"
| T_in_progress_blocked : spec_transition Task "in-progress" "blocked"
| T_in_progress_completed : spec_transition Task "in-progress" "completed"
| T_in_progress_todo : spec_transition Task "in-progress" "todo"
| T_blocked_in_progress : spec_transition Task "blocked" "in-progress"
| T_blocked_todo : spec_transition Task "blocked" "todo".

(** [n] is an integer of the range 1-21 *)
Definition story_point (n : number) : bool :=
  Number.is_integer n && Number.le (of_Z 1) n && Number.le n (of_Z 21).

(** The story-point constructor read as a validator of integers in 1-21:
    it returns [n] for a story point and raises for every other number. *)
Definition validates_story_points (n : number) : Prop :=
  if story_point n
  then createStoryPoints n = Normal n
  else exists e, createStoryPoints n = Throw e.

(** the validation error that names the tag whose text is [text] *)
Definition names_tag (text : string) : exn :=
  ValidationError "Invalid project item type"
    ["Expected 'feature', 'bug', or 'task', got '" ++ text ++ "'"].

(** what a wrapper [safe] owes the validator [run] it wraps *)
Definition converts (safe : value -> SafeResult)
  (run : value -> completion bool) : Prop :=
  forall input : value,
    match run input with
    | Normal _ => safe input = mkSafe (mkResult true []) (Some input)
    | Throw (ValidationError _ errs) =>
        safe input = mkSafe (mkResult false errs) None
    | Throw (Error _ message) =>
        safe input = mkSafe (mkResult false [message]) None
    | Throw (Thrown _) =>
        safe input = mkSafe (mkResult false ["Unknown error"]) None
    end.

(** the field validator returns on [x] whatever the schema and the label *)
Definition returns_on (x : value) : Prop :=
  forall (schema : Schema) (fieldName : string),
    patterns_compile schema = true -> literals_convert schema = true ->
    exists r, validateField x schema fieldName = Normal r.

(** the message [s] begins with the label [fieldName] *)
Definition labelled (fieldName s : string) : Prop :=
  exists rest : string, s = fieldName ++ rest.

(** [e] is the SyntaxError that [new RegExp] raises on some pattern *)
Definition syntax_error (e : exn) : Prop :=
  exists p msg : string, RegExp p = inl msg /\ e = Error "SyntaxError" msg.

(** validity as the engine computes it: no error was pushed *)
Definition coherent (r : ValidationResult) : Prop :=
  valid r = true <-> errors r = [].

(** every error the field validator reports on [x] begins with the label it
    was given *)
Definition labels_on (x : value) : Prop :=
  forall (schema : Schema) (fieldName : string) (r : ValidationResult),
    validateField x schema fieldName = Normal r ->
    Forall (labelled fieldName) (errors r).

(** what the engine raises against [schema]: the SyntaxError of a pattern,
    or the TypeError of a literal of the schema that has no text *)
Definition engine_error (schema : Schema) (e : exn) : Prop :=
  syntax_error e \/ (e = cannot_convert /\ literals_convert schema = false).

(** the field validator raises nothing else on [x] *)
Definition raises_on (x : value) : Prop :=
  forall (schema : Schema) (fieldName : string) (e : exn),
    validateField x schema fieldName = Throw e -> engine_error schema e.

(** the tag, the typed validator, its wrapper and its failure message, by
    kind *)
Definition kind_tag (k : Kind) : string :=
  match k with
  | Feature => "feature"
  | Bug => "bug"
  | Task => "task"
  end.

Definition validateKind (k : Kind) : value -> completion bool :=
  match k with
  | Feature => validateFeature
  | Bug => validateBug
  | Task => validateTask
  end.

Definition tryValidateKind (k : Kind) : value -> SafeResult :=
  match k with
  | Feature => tryValidateFeature
  | Bug => tryValidateBug
  | Task => tryValidateTask
  end.

(** what a typed validator [run] for [schema] does, in terms of the engine *)
Definition typed_outcome (run : value -> completion bool) (schema : Schema)
  (message : string) : Prop :=
  forall input : value,
    match run input with
    | Normal b => b = true /\ validate input schema = Normal (mkResult true [])
    | Throw (ValidationError m errs) =>
        m = message /\ errs <> []
        /\ validate input schema = Normal (mkResult false errs)
    | Throw e => syntax_error e /\ validate input schema = Throw e
    end.

(** the status [to] can be reached from [from] by allowed transitions *)
Inductive reachable (k : Kind) : string -> string -> Prop :=
| reach_here (s : string) : In s (statuses k) -> reachable k s s
| reach_step (a b c : string) :
    canTransitionKind k a b = Normal true -> reachable k b c ->
    reachable k a c.

(** the transition table of a kind *)
Definition table_of (k : Kind) : list (string * list string) :=
  match k with
  | Feature => FEATURE_STATUS_TRANSITIONS
  | Bug => BUG_STATUS_TRANSITIONS
  | Task => TASK_STATUS_TRANSITIONS
  end.

(** bounded search along the table: [to] is within [n] steps of [from] *)
Fixpoint reaches (k : Kind) (n : nat) (from to : string) : bool :=
  (from =? to)
  || match n with
     | 0 => false
     | S m =>
         match lookup from (table_of k) with
         | Some next => existsb (fun via => reaches k m via to) next
         | None => false
         end
     end.

(** the message of the [ValidationError] a kind's validator raises *)
Definition failure_message (k : Kind) : string :=
  match k with
  | Feature => "Feature validation failed"
  | Bug => "Bug validation failed"
  | Task => "Task validation failed"
  end.

(** ** Branded numbers *)

Lemma le_not_lt (a b : number) : Number.le a b = true -> Number.lt b a = false.
Proof.
  unfold Number.le.
  destruct a, b; try discriminate; try reflexivity;
    intros H; apply negb_true_iff in H; exact H.
Qed.

(** C1, as amended.  [createStoryPoints] checks the range and nothing else:
    it raises the fixed error for every [n] with [n < 1] or [n > 21], and
    returns [n] itself for every [n] with [1 <= n <= 21], integer or not. *)
Theorem createStoryPoints_range (n : number) :
  (Number.lt n (of_Z 1) || Number.gt n (of_Z 21) = true ->
   createStoryPoints n
   = Throw (Error "Error" "Story points must be between 1 and 21"))
  /\ (Number.le (of_Z 1) n && Number.le n (of_Z 21) = true ->
      createStoryPoints n = Normal n).
Proof.
  unfold createStoryPoints. split.
  - intros H. rewrite H. reflexivity.
  - intros H. apply andb_true_iff in H. destruct H as [Hlo Hhi].
    apply le_not_lt in Hlo. apply le_not_lt in Hhi.
    unfold Number.gt. rewrite Hlo, Hhi. reflexivity.
Qed.

(** C1, as stated, fails at 1.5: the number is no integer, yet the
    constructor returns it. *)
Lemma createStoryPoints_accepts_fraction :
  ~ validates_story_points (Finite (Qmake 3 2)).
Proof.
  unfold validates_story_points.
  replace (story_point (Finite (Qmake 3 2))) with false by reflexivity.
  intros [e He]. discriminate He.
Qed.

(** ** Transition tables *)

Lemma mem_In (s : string) (l : list string) : mem s l = true <-> In s l.
Proof.
  unfold mem. rewrite existsb_exists. split.
  - intros [x [Hin Heq]]. apply String.eqb_eq in Heq. subst. exact Hin.
  - intros Hin. exists s. split; [exact Hin | apply String.eqb_refl].
Qed.

Ltac each_status H :=
  repeat (destruct H as [H | H]; [subst | ]); try contradiction.

Ltac decide_mem :=
  repeat match goal with
         | |- context [String.eqb ?a ?b] =>
             destruct (String.eqb_spec a b); subst
         end.

(** C5.  For every status [from] of a kind and every [to], the kind's check
    returns, and returns true exactly when the specification's table has
    the arrow from [from] to [to]. *)
Theorem canTransition_matches_tables (k : Kind) (from to : string)
  (Hfrom : In from (statuses k)) :
  exists b, canTransitionKind k from to = Normal b
            /\ (b = true <-> spec_transition k from to).
Proof.
  destruct k; simpl in Hfrom; each_status Hfrom; simpl;
    unfold canTransitionFeatureStatus, canTransitionBugStatus,
      canTransitionTaskStatus, table_includes; simpl;
    eexists; (split; [reflexivity | ]);
    (split;
     [ decide_mem; simpl; intros H; try discriminate H; constructor
     | intros H; inversion H; subst; reflexivity ]).
Qed.

(** C10.  No table entry lists its own key, and for every status [s] of a
    kind the kind's check of [s] against itself returns false. *)
Theorem transitions_irreflexive (k : Kind) (s : string)
  (Hs : In s (statuses k)) :
  canTransitionKind k s s = Normal false
  /\ forallb (fun e => negb (mem (fst e) (snd e)))
       (FEATURE_STATUS_TRANSITIONS ++ BUG_STATUS_TRANSITIONS
        ++ TASK_STATUS_TRANSITIONS) = true.
Proof.
  split; [ | reflexivity ].
  destruct k; simpl in Hs; each_status Hs; reflexivity.
Qed.

(** C8.  [canTransitionStatus] hands the item's status and the new status to
    the check of the item's kind, and returns false, without raising, for an
    item whose tag is none of the three. *)
Theorem canTransitionStatus_dispatch (item : ProjectItem) (newStatus : string) :
  (item_type item = "feature" ->
   canTransitionStatus item newStatus
   = canTransitionFeatureStatus (item_status item) newStatus)
  /\ (item_type item = "bug" ->
      canTransitionStatus item newStatus
      = canTransitionBugStatus (item_status item) newStatus)
  /\ (item_type item = "task" ->
      canTransitionStatus item newStatus
      = canTransitionTaskStatus (item_status item) newStatus)
  /\ (~ In (item_type item) ["feature"; "bug"; "task"] ->
      canTransitionStatus item newStatus = Normal false).
Proof.
  unfold canTransitionStatus, isFeature, isBug, isTask.
  repeat split; intros H.
  - rewrite H. reflexivity.
  - rewrite H. reflexivity.
  - rewrite H. reflexivity.
  - destruct (String.eqb_spec (item_type item) "feature") as [E | _];
      [ exfalso; apply H; left; symmetry; exact E | ].
    destruct (String.eqb_spec (item_type item) "bug") as [E | _];
      [ exfalso; apply H; right; left; symmetry; exact E | ].
    destruct (String.eqb_spec (item_type item) "task") as [E | _];
      [ exfalso; apply H; right; right; left; symmetry; exact E | ].
    reflexivity.
Qed.

(** ** The engine on [null] *)

Lemma type_is_name (schema : Schema) (t : string) :
  type schema = TypeName t -> type_is schema t = true.
Proof.
  unfold type_is. intros ->. apply String.eqb_refl.
Qed.

Lemma validate_null (schema : Schema) :
  type schema = TypeName "object" ->
  validate VNull schema = Normal (mkResult true []).
Proof.
  intros Ht. unfold validate, validateSchema, validateSchema_with.
  rewrite (type_is_name _ _ Ht). simpl.
  unfold typeof_differs. rewrite Ht. reflexivity.
Qed.

(** C2.  Against every object-schema, [null] validates with no error; the
    four typed validators return true on [null]. *)
Theorem null_passes_object_schemas :
  (forall schema : Schema,
      type schema = TypeName "object" ->
      validate VNull schema = Normal (mkResult true []))
  /\ validateFeature VNull = Normal true
  /\ validateBug VNull = Normal true
  /\ validateTask VNull = Normal true
  /\ validateProjectData VNull = Normal true.
Proof.
  split; [ exact validate_null | ].
  unfold validateFeature, validateBug, validateTask, validateProjectData.
  rewrite !validate_null by reflexivity.
  repeat split.
Qed.

(** ** Dispatch on the type tag *)

Lemma strict_equal_string (v : value) (s : string) :
  strict_equal v (VString s) = true <-> v = VString s.
Proof.
  split.
  - destruct v; simpl; try discriminate.
    intros H. apply String.eqb_eq in H. subst. reflexivity.
  - intros ->. simpl. apply String.eqb_refl.
Qed.

Lemma strict_equal_other (v : value) (s : string) :
  v <> VString s -> strict_equal v (VString s) = false.
Proof.
  intros H. destruct (strict_equal v (VString s)) eqn:E; [ | reflexivity ].
  apply strict_equal_string in E. contradiction.
Qed.

Lemma unrecognized_tag (input : value) :
  is_record input = true ->
  ~ In (get input "type")
      [VString "feature"; VString "bug"; VString "task"] ->
  validateProjectItem input
  = (text <- to_string (get input "type") ;;
     Throw (ValidationError "Invalid project item type"
              ["Expected 'feature', 'bug', or 'task', got '" ++ text ++ "'"])).
Proof.
  unfold validateProjectItem, is_record, invalid_type_message.
  intros H Htag. apply andb_true_iff in H. destruct H as [Ht Hn].
  apply negb_true_iff in Hn. rewrite Ht, Hn. simpl.
  rewrite !strict_equal_other.
  - destruct (to_string (get input "type")); reflexivity.
  - intros E. apply Htag. rewrite E. right. right. left. reflexivity.
  - intros E. apply Htag. rewrite E. right. left. reflexivity.
  - intros E. apply Htag. rewrite E. left. reflexivity.
Qed.

(** C6.  [validateProjectItem] raises a validation error with the error list
    ['Expected object'] unless the input is a non-null record; on a record
    it runs the typed validator its [type] tag names.  For any other tag
    it raises the validation error that quotes the text of the tag: a
    string as it is, 'undefined' for an absent tag, 'null', 'true' or
    'false', the digits of a number, '[object Object]' for an object with
    no [toString] property of its own, and in general whatever text the tag
    has.  A tag that is an object with an own [toString] property has no
    text: writing it into the message raises a TypeError, and that, not a
    validation error, is what the function raises. *)
Theorem validateProjectItem_dispatch (input : value) :
  (is_record input = false ->
   validateProjectItem input
   = Throw (ValidationError "Invalid project item" ["Expected object"]))
  /\ (is_record input = true ->
      (get input "type" = VString "feature" ->
       validateProjectItem input = validateFeature input)
      /\ (get input "type" = VString "bug" ->
          validateProjectItem input = validateBug input)
      /\ (get input "type" = VString "task" ->
          validateProjectItem input = validateTask input)
      /\ (~ In (get input "type")
              [VString "feature"; VString "bug"; VString "task"] ->
          (forall tag, get input "type" = VString tag ->
             validateProjectItem input
             = Throw (ValidationError "Invalid project item type"
                        ["Expected 'feature', 'bug', or 'task', got '"
                         ++ tag ++ "'"]))
          /\ (get input "type" = VUndefined ->
              validateProjectItem input = Throw (names_tag "undefined"))
          /\ (get input "type" = VNull ->
              validateProjectItem input = Throw (names_tag "null"))
          /\ (forall b, get input "type" = VBoolean b ->
                validateProjectItem input
                = Throw (names_tag (if b then "true" else "false")))
          /\ (forall n, get input "type" = VNumber n ->
                validateProjectItem input
                = Throw (names_tag (Number_toString n)))
          /\ (forall fields,
                get input "type" = VObject fields ->
                has_key "toString" fields = false ->
                validateProjectItem input
                = Throw (names_tag "[object Object]"))
          /\ (forall text, to_string (get input "type") = Normal text ->
                validateProjectItem input = Throw (names_tag text))
          /\ (forall fields,
                get input "type" = VObject fields ->
                has_key "toString" fields = true ->
                validateProjectItem input
                = Throw (Error "TypeError"
                           "Cannot convert object to primitive value")))).
Proof.
  split.
  - unfold validateProjectItem, is_record. intros H.
    apply andb_false_iff in H. destruct H as [H | H].
    + rewrite H. reflexivity.
    + apply negb_false_iff in H. rewrite H, orb_true_r. reflexivity.
  - intros Hrec. split; [ | split; [ | split ] ].
    + unfold validateProjectItem, is_record in *. intros Htag.
      apply andb_true_iff in Hrec. destruct Hrec as [Ht Hn].
      apply negb_true_iff in Hn. rewrite Ht, Hn, Htag. reflexivity.
    + unfold validateProjectItem, is_record in *. intros Htag.
      apply andb_true_iff in Hrec. destruct Hrec as [Ht Hn].
      apply negb_true_iff in Hn. rewrite Ht, Hn, Htag. reflexivity.
    + unfold validateProjectItem, is_record in *. intros Htag.
      apply andb_true_iff in Hrec. destruct Hrec as [Ht Hn].
      apply negb_true_iff in Hn. rewrite Ht, Hn, Htag. reflexivity.
    + intros Htag. rewrite (unrecognized_tag input Hrec Htag).
      split; [ | split; [ | split; [ | split; [ | split;
        [ | split; [ | split ] ] ] ] ] ].
      * intros tag ->. reflexivity.
      * intros ->. reflexivity.
      * intros ->. reflexivity.
      * intros b ->. reflexivity.
      * intros n ->. reflexivity.
      * intros fields -> Hown. simpl. rewrite Hown. reflexivity.
      * intros text ->. reflexivity.
      * intros fields -> Hown. simpl. rewrite Hown. reflexivity.
Qed.

(** ** The non-throwing wrappers *)

(** C7.  Each [tryValidate*] returns the input as [data] with no error when
    its validator returns; the error list of a raised [ValidationError],
    with [data] absent; for any other [Error] raised, the one-entry list of
    that error's own message; and ['Unknown error'] for a raised value that
    is no [Error]. *)
Theorem tryValidate_converts :
  converts tryValidateFeature validateFeature
  /\ converts tryValidateBug validateBug
  /\ converts tryValidateTask validateTask.
Proof.
  unfold converts, tryValidateFeature, tryValidateBug, tryValidateTask.
  split; [ | split ]; intros input.
  - destruct (validateFeature input) as [b | [m errs | n m | w]];
      reflexivity.
  - destruct (validateBug input) as [b | [m errs | n m | w]]; reflexivity.
  - destruct (validateTask input) as [b | [m errs | n m | w]]; reflexivity.
Qed.

(** ** The engine: equations and loops *)

Lemma validateField_unfold (v : value) (schema : Schema) (fieldName : string) :
  validateField v schema fieldName
  = validateField_with validateField v schema fieldName.
Proof. destruct v; reflexivity. Qed.

Lemma bind_Normal_id {A : Type} (c : completion A) :
  (x <- c ;; Normal x) = c.
Proof. destruct c; reflexivity. Qed.

Lemma Normal_inj {A : Type} (a b : A) : Normal a = Normal b -> a = b.
Proof. intros H. injection H as H. exact H. Qed.

Lemma result_of_valid (errs : list string) :
  result_of errs = mkResult true [] <-> errs = [].
Proof.
  split.
  - destruct errs; [ reflexivity | discriminate ].
  - intros ->. reflexivity.
Qed.

Section Loops.

Context {A : Type}.
Variable step : string -> A -> completion (list string).

Lemma for_entries_insert (pre post : list (string * A)) (k : string) (a : A) :
  step k a = Normal [] ->
  for_entries step (pre ++ (k, a) :: post) = for_entries step (pre ++ post).
Proof.
  intros Hstep. induction pre as [ | e pre IH]; simpl.
  - rewrite Hstep. simpl. apply bind_Normal_id.
  - rewrite IH. reflexivity.
Qed.

Lemma for_entries_silent (es : list (string * A)) :
  for_entries step es = Normal []
  <-> Forall (fun e => step (fst e) (snd e) = Normal []) es.
Proof.
  induction es as [ | e es IH]; simpl.
  - split; [ constructor | reflexivity ].
  - split.
    + intros H.
      destruct (step (fst e) (snd e)) as [here | ] eqn:Ehere;
        [ | discriminate ].
      destruct (for_entries step es) as [more | ] eqn:Emore;
        [ | discriminate ].
      simpl in H. injection H as H. apply app_eq_nil in H.
      destruct H as [H1 H2]. subst here more.
      constructor; [ exact Ehere | apply IH; reflexivity ].
    + intros H. inversion H as [ | ? ? Hhere Hrest]; subst.
      rewrite Hhere. apply IH in Hrest. rewrite Hrest. reflexivity.
Qed.

Lemma for_entries_returns (es : list (string * A)) :
  Forall (fun e => exists l, step (fst e) (snd e) = Normal l) es ->
  exists l, for_entries step es = Normal l.
Proof.
  induction 1 as [ | e es [here Hhere] _ [more Hmore]]; simpl.
  - eauto.
  - rewrite Hhere, Hmore. simpl. eauto.
Qed.

End Loops.

Lemma for_elements_returns {A : Type}
  (step : nat -> A -> completion (list string)) (l : list A) :
  Forall (fun x => forall i, exists r, step i x = Normal r) l ->
  forall i, exists r, for_elements step l i = Normal r.
Proof.
  induction 1 as [ | x l Hx _ IH]; intros i; simpl.
  - eauto.
  - destruct (Hx i) as [here ->]. destruct (IH (S i)) as [more ->].
    simpl. eauto.
Qed.

Lemma validateField_no_keywords (v : value) (fieldName : string) :
  validateField v no_keywords fieldName = Normal (mkResult true []).
Proof. destruct v; reflexivity. Qed.

Lemma validate_record (es : list (string * value)) (schema : Schema) :
  type schema = TypeName "object" ->
  validate (VObject es) schema
  = (found <- for_entries (check_property validateField schema) es ;;
     Normal (result_of (required_errors (VObject es) schema ++ found))).
Proof.
  intros Ht. unfold validate, validateSchema, validateSchema_with.
  rewrite (type_is_name _ _ Ht). reflexivity.
Qed.

Lemma validate_record_valid (es : list (string * value)) (schema : Schema) :
  type schema = TypeName "object" ->
  (validate (VObject es) schema = Normal (mkResult true [])
   <-> for_entries (check_property validateField schema) es = Normal []
       /\ required_errors (VObject es) schema = []).
Proof.
  intros Ht. rewrite (validate_record _ _ Ht). split.
  - intros H.
    destruct (for_entries _ es) as [found | ]; [ | discriminate ].
    simpl in H. apply Normal_inj, result_of_valid in H.
    apply app_eq_nil in H. destruct H as [Hreq ->]. split; [ reflexivity | ].
    exact Hreq.
  - intros [-> ->]. reflexivity.
Qed.

(** ** Required fields *)

Lemma required_errors_nil (data : value) (schema : Schema) :
  required_errors data schema = []
  <-> forall field, In field (required_names schema) ->
                    has_property field data = true.
Proof.
  unfold required_errors, required_names.
  destruct (required schema) as [req | ].
  - induction req as [ | f req IH]; simpl.
    + split; [ intros _ ? [] | reflexivity ].
    + split.
      * intros H. apply app_eq_nil in H. destruct H as [Hf Hreq].
        intros field [<- | Hin].
        -- destruct (has_property f data); [ reflexivity | discriminate ].
        -- apply IH; assumption.
      * intros H. rewrite (H f) by (left; reflexivity). simpl.
        apply IH. intros field Hin. apply H. right. exact Hin.
  - split; [ intros _ ? [] | reflexivity ].
Qed.

Lemma has_key_insert (field k : string) (a : value)
  (pre post : list (string * value)) :
  has_key field (pre ++ post) = true ->
  has_key field (pre ++ (k, a) :: post) = true.
Proof.
  unfold has_key. rewrite !existsb_app. simpl.
  intros H. apply orb_true_iff in H. destruct H as [-> | ->].
  - reflexivity.
  - rewrite !orb_true_r. reflexivity.
Qed.

Lemma check_property_undeclared (schema : Schema) (key : string) (v : value) :
  (forall props, properties schema = Some props -> lookup key props = None) ->
  check_property validateField schema key v = Normal [].
Proof.
  intros Hkey. unfold check_property, properties_get.
  destruct (properties schema) as [props | ]; [ | reflexivity ].
  rewrite (Hkey props eq_refl).
  destruct (mem key Object_prototype_keys); [ | reflexivity ].
  rewrite validateField_no_keywords. reflexivity.
Qed.

(** C4.  Adding, at any place of a record that an object-schema validates
    with no error, a field the schema's property map does not name leaves
    the result valid with no error; the three entity schemas nevertheless
    declare [additionalProperties: false]. *)
Theorem undeclared_field_ignored (schema : Schema)
  (pre post : list (string * value)) (key : string) (v : value)
  (Hobj : type schema = TypeName "object")
  (Hkey : forall props,
      properties schema = Some props -> lookup key props = None)
  (Hvalid : validate (VObject (pre ++ post)) schema
            = Normal (mkResult true [])) :
  validate (VObject (pre ++ (key, v) :: post)) schema
  = Normal (mkResult true [])
  /\ forall k : Kind, additionalProperties (schema_of k) = Some false.
Proof.
  split; [ | intros []; reflexivity ].
  apply (validate_record_valid _ _ Hobj) in Hvalid.
  destruct Hvalid as [Hfound Hreq].
  apply (validate_record_valid _ _ Hobj). split.
  - rewrite for_entries_insert; [ exact Hfound | ].
    apply check_property_undeclared. exact Hkey.
  - apply required_errors_nil. intros field Hin.
    apply (proj1 (required_errors_nil _ _) Hreq) in Hin.
    simpl in *. apply orb_true_iff in Hin. apply orb_true_iff.
    destruct Hin as [Hown | Hproto]; [ left | right; exact Hproto ].
    apply has_key_insert. exact Hown.
Qed.

(** ** The engine returns when the patterns compile *)

Lemma value_ind (P : value -> Prop)
  (Hundefined : P VUndefined)
  (Hnull : P VNull)
  (Hboolean : forall b, P (VBoolean b))
  (Hnumber : forall n, P (VNumber n))
  (Hstring : forall s, P (VString s))
  (Harray : forall l, Forall P l -> P (VArray l))
  (Hobject : forall es, Forall (fun e => P (snd e)) es -> P (VObject es)) :
  forall v : value, P v.
Proof.
  fix self 1. intros [ | | b | n | s | l | es].
  - exact Hundefined.
  - exact Hnull.
  - apply Hboolean.
  - apply Hnumber.
  - apply Hstring.
  - apply Harray. induction l as [ | x l IH]; constructor.
    + apply self.
    + exact IH.
  - apply Hobject. induction es as [ | [k x] es IH]; constructor.
    + apply self.
    + exact IH.
Qed.

Lemma lookup_In {A : Type} (key : string) (l : list (string * A)) (a : A) :
  lookup key l = Some a -> exists k, In (k, a) l.
Proof.
  induction l as [ | [k b] l IH]; simpl; [ discriminate | ].
  destruct (k =? key).
  - intros H. injection H as ->. exists k. left. reflexivity.
  - intros H. destruct (IH H) as [k' Hin]. exists k'. right. exact Hin.
Qed.

Lemma patterns_compile_pattern (schema : Schema) (p : string) :
  patterns_compile schema = true -> pattern schema = Some p ->
  exists test, RegExp p = inr test.
Proof.
  destruct schema; simpl. intros H ->.
  apply andb_true_iff in H. destruct H as [H _].
  apply andb_true_iff in H. destruct H as [H _].
  destruct (RegExp p) as [ | test]; [ discriminate | eauto ].
Qed.

Lemma patterns_compile_items (schema itemSchema : Schema) :
  patterns_compile schema = true -> items schema = Some itemSchema ->
  patterns_compile itemSchema = true.
Proof.
  destruct schema; simpl. intros H ->.
  apply andb_true_iff in H. destruct H as [H _].
  apply andb_true_iff in H. destruct H as [_ H]. exact H.
Qed.

Lemma patterns_compile_property (schema fieldSchema : Schema)
  (props : list (string * Schema)) (key : string) :
  patterns_compile schema = true -> properties schema = Some props ->
  properties_get props key = Some fieldSchema ->
  patterns_compile fieldSchema = true.
Proof.
  destruct schema; simpl. intros H -> Hget.
  apply andb_true_iff in H. destruct H as [_ H].
  unfold properties_get in Hget.
  destruct (lookup key props) as [s | ] eqn:Elook.
  - injection Hget as ->. apply lookup_In in Elook.
    destruct Elook as [k Hin].
    apply (proj1 (forallb_forall _ _) H) in Hin. exact Hin.
  - destruct (mem key Object_prototype_keys); [ | discriminate ].
    injection Hget as <-. reflexivity.
Qed.

Lemma literals_convert_enum (schema : Schema) (allowed : list value) :
  literals_convert schema = true -> enum schema = Some allowed ->
  exists listed, join ", " allowed = Normal listed.
Proof.
  destruct schema; simpl. intros H ->.
  repeat (apply andb_true_iff in H; destruct H as [H _]).
  destruct (join ", " allowed) as [listed | ]; [ eauto | discriminate ].
Qed.

Lemma literals_convert_const (schema : Schema) :
  literals_convert schema = true ->
  exists text, to_string (const schema) = Normal text.
Proof.
  destruct schema; simpl. intros H.
  apply andb_true_iff in H. destruct H as [H _].
  apply andb_true_iff in H. destruct H as [H _].
  apply andb_true_iff in H. destruct H as [_ H].
  unfold converts_to_text in H.
  match type of H with
  | context [to_string ?c] => destruct (to_string c) as [text | ]
  end; [ eauto | discriminate ].
Qed.

Lemma literals_convert_items (schema itemSchema : Schema) :
  literals_convert schema = true -> items schema = Some itemSchema ->
  literals_convert itemSchema = true.
Proof.
  destruct schema; simpl. intros H ->.
  apply andb_true_iff in H. destruct H as [H _].
  apply andb_true_iff in H. destruct H as [_ H]. exact H.
Qed.

Lemma literals_convert_property (schema fieldSchema : Schema)
  (props : list (string * Schema)) (key : string) :
  literals_convert schema = true -> properties schema = Some props ->
  properties_get props key = Some fieldSchema ->
  literals_convert fieldSchema = true.
Proof.
  destruct schema; simpl. intros H -> Hget.
  apply andb_true_iff in H. destruct H as [_ H].
  unfold properties_get in Hget.
  destruct (lookup key props) as [s | ] eqn:Elook.
  - injection Hget as ->. apply lookup_In in Elook.
    destruct Elook as [k Hin].
    apply (proj1 (forallb_forall _ _) H) in Hin. exact Hin.
  - destruct (mem key Object_prototype_keys); [ | discriminate ].
    injection Hget as <-. reflexivity.
Qed.

Lemma string_part_returns (v : value) (schema : Schema) (fieldName : string) :
  patterns_compile schema = true ->
  exists l, string_part v schema fieldName = Normal l.
Proof.
  intros Hc. unfold string_part.
  destruct v; eauto.
  destruct (type_is schema "string"); eauto.
  unfold string_checks.
  destruct (pattern schema) as [p | ] eqn:Ep; eauto.
  destruct (patterns_compile_pattern _ _ Hc Ep) as [test ->]. eauto.
Qed.

Lemma enum_check_returns (v : value) (schema : Schema) (fieldName : string) :
  literals_convert schema = true ->
  exists l, enum_check v schema fieldName = Normal l.
Proof.
  intros Hl. unfold enum_check.
  destruct (enum schema) as [allowed | ] eqn:Ee; eauto.
  destruct (includes allowed v); eauto.
  destruct (literals_convert_enum _ _ Hl Ee) as [listed ->]. simpl. eauto.
Qed.

Lemma const_check_returns (v : value) (schema : Schema) (fieldName : string) :
  literals_convert schema = true ->
  exists l, const_check v schema fieldName = Normal l.
Proof.
  intros Hl. unfold const_check.
  destruct (negb (is_undefined (const schema))
            && negb (strict_equal v (const schema))); eauto.
  destruct (literals_convert_const _ Hl) as [text ->]. simpl. eauto.
Qed.

Lemma check_property_returns (schema : Schema) (key : string) (v : value) :
  patterns_compile schema = true -> literals_convert schema = true ->
  returns_on v ->
  exists l, check_property validateField schema key v = Normal l.
Proof.
  intros Hc Hl Hv. unfold check_property.
  destruct (properties schema) as [props | ] eqn:Ep; eauto.
  destruct (properties_get props key) as [fieldSchema | ] eqn:Eg; eauto.
  destruct (Hv fieldSchema key (patterns_compile_property _ _ _ _ Hc Ep Eg)
              (literals_convert_property _ _ _ _ Hl Ep Eg)) as [r ->].
  simpl. eauto.
Qed.

Lemma record_loop_returns (data : value) (schema : Schema) :
  patterns_compile schema = true -> literals_convert schema = true ->
  (forall l, data = VArray l -> Forall returns_on l) ->
  (forall es, data = VObject es -> Forall (fun e => returns_on (snd e)) es) ->
  exists found,
    match data with
    | VObject es => for_entries (check_property validateField schema) es
    | VArray l =>
        for_elements
          (fun i => check_property validateField schema (string_of_nat i)) l 0
    | _ => Normal []
    end = Normal found.
Proof.
  intros Hc Hl Harr Hobj. destruct data as [ | | b | n | s | l | es]; eauto.
  - apply for_elements_returns.
    eapply Forall_impl; [ | exact (Harr l eq_refl) ].
    intros x Hx i. apply check_property_returns; assumption.
  - apply for_entries_returns.
    eapply Forall_impl; [ | exact (Hobj es eq_refl) ].
    intros e He. apply check_property_returns; assumption.
Qed.

Lemma array_part_returns (v : value) (schema : Schema) (fieldName : string) :
  patterns_compile schema = true -> literals_convert schema = true ->
  (forall l, v = VArray l -> Forall returns_on l) ->
  exists l, array_part validateField v schema fieldName = Normal l.
Proof.
  intros Hc Hl Harr. unfold array_part.
  destruct v as [ | | b | n | s | l | es]; eauto.
  destruct (type_is schema "array"); eauto.
  destruct (items schema) as [itemSchema | ] eqn:Ei; [ | simpl; eauto ].
  destruct (for_elements_returns
              (fun i x =>
                 itemResult <-
                   validateField x itemSchema
                     (fieldName ++ "[" ++ string_of_nat i ++ "]") ;;
                 Normal (errors itemResult)) l) with (i := 0) as [elems ->].
  - eapply Forall_impl; [ | exact (Harr l eq_refl) ].
    intros x Hx i.
    destruct (Hx itemSchema (fieldName ++ "[" ++ string_of_nat i ++ "]")
                (patterns_compile_items _ _ Hc Ei)
                (literals_convert_items _ _ Hl Ei)) as [r ->].
    simpl. eauto.
  - simpl. eauto.
Qed.

Lemma object_part_returns (v : value) (schema : Schema) (fieldName : string) :
  patterns_compile schema = true -> literals_convert schema = true ->
  (forall l, v = VArray l -> Forall returns_on l) ->
  (forall es, v = VObject es -> Forall (fun e => returns_on (snd e)) es) ->
  exists l, object_part validateField v schema fieldName = Normal l.
Proof.
  intros Hc Hl Harr Hobj. unfold object_part, validateSchema_with.
  destruct (type_is schema "object" && is_record v); eauto.
  destruct (record_loop_returns v schema Hc Hl Harr Hobj) as [found ->].
  simpl. eauto.
Qed.

Lemma validateField_with_returns (v : value) :
  (forall l, v = VArray l -> Forall returns_on l) ->
  (forall es, v = VObject es -> Forall (fun e => returns_on (snd e)) es) ->
  returns_on v.
Proof.
  intros Harr Hobj schema fieldName Hc Hl.
  rewrite validateField_unfold. unfold validateField_with.
  destruct (allows_null schema && is_null v); eauto.
  destruct (type_mismatch v schema fieldName); eauto.
  destruct (string_part_returns v schema fieldName Hc) as [ss ->].
  destruct (enum_check_returns v schema fieldName Hl) as [ee ->].
  destruct (const_check_returns v schema fieldName Hl) as [cc ->].
  destruct (array_part_returns v schema fieldName Hc Hl Harr) as [aa ->].
  destruct (object_part_returns v schema fieldName Hc Hl Harr Hobj)
    as [oo ->].
  simpl. eauto.
Qed.

Lemma validateField_returns (v : value) : returns_on v.
Proof.
  induction v using value_ind; apply validateField_with_returns;
    intros ? E; try discriminate E; injection E as <-; assumption.
Qed.

Lemma validate_record_returns (data : value) (schema : Schema) :
  type schema = TypeName "object" -> is_record data = true ->
  patterns_compile schema = true -> literals_convert schema = true ->
  exists found,
    validate data schema
    = Normal (result_of (required_errors data schema ++ found)).
Proof.
  intros Ht Hrec Hc Hl. unfold validate, validateSchema, validateSchema_with.
  rewrite (type_is_name _ _ Ht), Hrec. simpl.
  destruct (record_loop_returns data schema Hc Hl) as [found ->].
  - intros l _. apply Forall_forall. intros x _. apply validateField_returns.
  - intros es _. apply Forall_forall. intros e _. apply validateField_returns.
  - simpl. eauto.
Qed.

(** ** Removing a required field *)

Lemma has_key_remove (field name : string) (es : list (string * value)) :
  has_key field (remove_key name es)
  = negb (field =? name) && has_key field es.
Proof.
  unfold has_key, remove_key.
  induction es as [ | [k x] es IH]; simpl.
  - rewrite andb_false_r. reflexivity.
  - destruct (String.eqb_spec k name) as [-> | Hk]; simpl.
    + rewrite IH. rewrite (String.eqb_sym name field).
      destruct (field =? name); reflexivity.
    + rewrite IH.
      destruct (String.eqb_spec k field) as [-> | Hf]; simpl.
      * destruct (String.eqb_spec field name) as [-> | _];
          [ contradiction | reflexivity ].
      * reflexivity.
Qed.

Lemma has_property_remove_other (field name : string)
  (es : list (string * value)) :
  field <> name ->
  has_property field (VObject (remove_key name es))
  = has_property field (VObject es).
Proof.
  intros Hne. unfold has_property. rewrite has_key_remove.
  destruct (String.eqb_spec field name); [ contradiction | reflexivity ].
Qed.

Lemma has_property_remove_same (name : string) (es : list (string * value)) :
  mem name Object_prototype_keys = false ->
  has_property name (VObject (remove_key name es)) = false.
Proof.
  intros Hown. unfold has_property.
  rewrite has_key_remove, String.eqb_refl, Hown. reflexivity.
Qed.

(** the required-field loop over names that are all present *)
Lemma required_loop_silent (req : list string) (data : value) :
  (forall field, In field req -> has_property field data = true) ->
  flat_map (fun field =>
              if has_property field data then []
              else ["Missing required field: " ++ field]) req = [].
Proof.
  induction req as [ | f req IH]; intros Hall; [ reflexivity | ].
  cbn [flat_map]. rewrite (Hall f) by (left; reflexivity).
  apply IH. intros field Hf. apply Hall. right. exact Hf.
Qed.

Lemma required_errors_after_delete (schema : Schema) (name : string)
  (es : list (string * value)) :
  NoDup (required_names schema) ->
  In name (required_names schema) ->
  mem name Object_prototype_keys = false ->
  required_errors (VObject es) schema = [] ->
  required_errors (VObject (remove_key name es)) schema
  = ["Missing required field: " ++ name].
Proof.
  intros Hnodup Hin Hown Hall.
  rewrite required_errors_nil in Hall.
  unfold required_errors, required_names in *.
  destruct (required schema) as [req | ]; [ | contradiction ].
  induction req as [ | f req IH]; [ contradiction | ].
  inversion Hnodup as [ | ? ? Hfresh Hrest]; subst.
  cbn [flat_map].
  destruct (String.eqb_spec f name) as [-> | Hne].
  - rewrite (has_property_remove_same _ _ Hown).
    rewrite required_loop_silent; [ reflexivity | ].
    intros field Hf. rewrite has_property_remove_other.
    + apply Hall. right. exact Hf.
    + intros ->. contradiction.
  - rewrite (has_property_remove_other _ _ _ Hne).
    rewrite (Hall f) by (left; reflexivity).
    apply IH.
    + exact Hrest.
    + destruct Hin as [E | Hin]; [ contradiction | exact Hin ].
    + intros field Hf. apply Hall. right. exact Hf.
Qed.

Lemma entity_patterns_compile (k : Kind) (test : string -> bool) :
  RegExp id_pattern = inr test -> patterns_compile (schema_of k) = true.
Proof.
  intros Hre. unfold id_pattern in Hre.
  destruct k; cbv; rewrite !Hre; reflexivity.
Qed.

Lemma entity_literals_convert (k : Kind) :
  literals_convert (schema_of k) = true.
Proof. destruct k; reflexivity. Qed.

Lemma entity_required_distinct (k : Kind) :
  NoDup (required_names (schema_of k)).
Proof.
  destruct k; cbn; repeat constructor; cbn; intuition discriminate.
Qed.

Lemma entity_required_own (k : Kind) (name : string) :
  In name (required_names (schema_of k)) ->
  mem name Object_prototype_keys = false.
Proof.
  intros H. destruct k; cbn in H; each_status H; reflexivity.
Qed.

(** C9.  On a runtime that compiles the identifier pattern, validating any
    non-null record against an entity schema returns, and the error list
    holds 'Missing required field: <name>' for every required name the
    record lacks.  Deleting one required field from a record the schema
    validates with no error leaves exactly that one error. *)
Theorem missing_required_field (k : Kind) (name : string)
  (test : string -> bool)
  (Hre : RegExp id_pattern = inr test)
  (Hname : In name (required_names (schema_of k))) :
  (forall data : value,
      is_record data = true -> has_property name data = false ->
      exists r, validate data (schema_of k) = Normal r
                /\ valid r = false
                /\ In ("Missing required field: " ++ name) (errors r))
  /\ (forall es : list (string * value),
         validate (VObject es) (schema_of k) = Normal (mkResult true []) ->
         validate (VObject (remove_key name es)) (schema_of k)
         = Normal (mkResult false ["Missing required field: " ++ name])).
Proof.
  assert (Hobj : type (schema_of k) = TypeName "object")
    by (destruct k; reflexivity).
  split.
  - intros data Hrec Habsent.
    destruct (validate_record_returns data (schema_of k) Hobj Hrec
                (entity_patterns_compile k test Hre)
                (entity_literals_convert k)) as [found ->].
    assert (Hin : In ("Missing required field: " ++ name)
                    (required_errors data (schema_of k) ++ found)).
    { apply in_or_app. left. unfold required_errors.
      unfold required_names in Hname.
      destruct (required (schema_of k)) as [req | ]; [ | contradiction ].
      apply in_flat_map. exists name. split; [ exact Hname | ].
      rewrite Habsent. left. reflexivity. }
    eexists. split; [ reflexivity | ]. split; [ | exact Hin ].
    destruct (required_errors data (schema_of k) ++ found)%list;
      [ contradiction | reflexivity ].
  - intros es Hvalid.
    apply (validate_record_valid _ _ Hobj) in Hvalid.
    destruct Hvalid as [Hfound Hreq].
    rewrite (validate_record _ _ Hobj).
    replace (for_entries (check_property validateField (schema_of k))
               (remove_key name es)) with (@Normal (list string) []).
    + simpl. rewrite required_errors_after_delete;
        [ reflexivity | apply entity_required_distinct | exact Hname
        | apply (entity_required_own k); exact Hname | exact Hreq ].
    + symmetry. apply for_entries_silent. apply for_entries_silent in Hfound.
      unfold remove_key. apply Forall_forall. intros e He.
      apply filter_In in He. destruct He as [He _].
      apply (proj1 (Forall_forall _ _) Hfound). exact He.
Qed.

(** ** String constraints *)

Lemma string_field_errors (s : string) (schema : Schema) (fieldName : string) :
  type schema = TypeName "string" ->
  validateField (VString s) schema fieldName
  = (strings <- string_checks s schema fieldName ;;
     enums <- enum_check (VString s) schema fieldName ;;
     consts <- const_check (VString s) schema fieldName ;;
     Normal (result_of (strings ++ enums ++ consts))).
Proof.
  intros Ht. rewrite validateField_unfold.
  unfold validateField_with, allows_null, type_mismatch, expectedType,
    string_part, number_part, array_part, object_part, type_is.
  rewrite Ht. simpl.
  destruct (string_checks s schema fieldName) as [strings | e];
    [ | reflexivity ].
  simpl.
  destruct (enum_check (VString s) schema fieldName) as [enums | e];
    [ | reflexivity ].
  simpl.
  destruct (const_check (VString s) schema fieldName) as [consts | e];
    [ | reflexivity ].
  simpl. rewrite !app_nil_r. reflexivity.
Qed.

(** under [type: 'string'] each violated constraint pushes its message, the
    later checks running whatever the earlier ones found *)
Lemma string_violations_accumulate (s : string) (schema : Schema)
  (fieldName p : string) (a b : nat) (test : string -> bool) :
  type schema = TypeName "string" ->
  minLength schema = Some a -> String.length s < a ->
  maxLength schema = Some b -> b < String.length s ->
  pattern schema = Some p -> RegExp p = inr test -> test s = false ->
  literals_convert schema = true ->
  exists rest,
    validateField (VString s) schema fieldName
    = Normal (mkResult false
                ([ fieldName ++ ": Minimum length is " ++ string_of_nat a;
                   fieldName ++ ": Maximum length is " ++ string_of_nat b;
                   fieldName ++ ": Does not match pattern " ++ p ] ++ rest)).
Proof.
  intros Ht Hmin Hshort Hmax Hlong Hpat Hre Htest Hl.
  rewrite (string_field_errors _ _ _ Ht). unfold string_checks.
  rewrite Hmin, Hmax, Hpat, Hre, Htest.
  rewrite (proj2 (Nat.ltb_lt _ _) Hshort), (proj2 (Nat.ltb_lt _ _) Hlong).
  destruct (enum_check_returns (VString s) schema fieldName Hl) as [ee ->].
  destruct (const_check_returns (VString s) schema fieldName Hl) as [cc ->].
  simpl. eexists. reflexivity.
Qed.

(** a string under [type: ['string', 'null']] meets no string check *)
Lemma nullable_string_unchecked (s : string) (minL : option nat)
  (fieldName : string) :
  validateField (VString s) (nullable_string_schema minL) fieldName
  = Normal (mkResult true []).
Proof. reflexivity. Qed.

(** ** More on the branded numbers *)

(** X1.  [createHours] raises the fixed error for every [n < 0] and returns
    [n] itself for every [n >= 0], the positive infinity included. *)
Theorem createHours_range (n : number) :
  (Number.lt n (of_Z 0) = true ->
   createHours n = Throw (Error "Error" "Hours must be non-negative"))
  /\ (Number.le (of_Z 0) n = true -> createHours n = Normal n).
Proof.
  unfold createHours. split.
  - intros ->. reflexivity.
  - intros H. apply le_not_lt in H. rewrite H. reflexivity.
Qed.

(** ** Invariants of the engine's results *)

Lemma result_of_coherent (errs : list string) : coherent (result_of errs).
Proof.
  unfold coherent. destruct errs; simpl; split; intros H;
    try reflexivity; discriminate H.
Qed.

Lemma validateSchema_coherent (v : value) (schema : Schema)
  (r : ValidationResult) :
  validateSchema v schema = Normal r -> coherent r.
Proof.
  unfold validateSchema, validateSchema_with.
  destruct (type_is schema "object" && is_record v).
  - match goal with
    | |- context [bind ?c _] => destruct c as [found | e]
    end; simpl; intros H; [ | discriminate H ].
    apply Normal_inj in H. subst r. apply result_of_coherent.
  - destruct (type schema); [ | destruct (typeof_differs v schema).. ];
      intros H; apply Normal_inj in H; subst r; apply result_of_coherent.
Qed.

Lemma validateField_coherent (v : value) (schema : Schema)
  (fieldName : string) (r : ValidationResult) :
  validateField v schema fieldName = Normal r -> coherent r.
Proof.
  rewrite validateField_unfold. unfold validateField_with.
  destruct (allows_null schema && is_null v).
  { intros H. apply Normal_inj in H. subst r. split; reflexivity. }
  destruct (type_mismatch v schema fieldName).
  { intros H. apply Normal_inj in H. subst r.
    split; intros E; discriminate E. }
  destruct (string_part v schema fieldName); [ | discriminate ].
  destruct (enum_check v schema fieldName); [ | discriminate ].
  destruct (const_check v schema fieldName); [ | discriminate ].
  destruct (array_part validateField v schema fieldName); [ | discriminate ].
  destruct (object_part validateField v schema fieldName); [ | discriminate ].
  simpl. intros H. apply Normal_inj in H. subst r. apply result_of_coherent.
Qed.

(** X2.  Whatever the value, the schema and the label, a result the engine
    returns is valid exactly when its error list is empty; this holds of
    [validateField], with its two early returns, and of [validate]. *)
Theorem results_coherent (v : value) (schema : Schema) (fieldName : string) :
  (forall r, validateField v schema fieldName = Normal r ->
             (valid r = true <-> errors r = []))
  /\ (forall r, validate v schema = Normal r ->
                (valid r = true <-> errors r = [])).
Proof.
  split; intros r H.
  - exact (validateField_coherent _ _ _ _ H).
  - unfold validate in H. destruct (negb (type_is schema "object")).
    + exact (validateField_coherent _ _ _ _ H).
    + exact (validateSchema_coherent _ _ _ H).
Qed.

(** ** What the loops collect and raise *)

Section LoopResults.

Context {A : Type}.
Variable P : string -> Prop.
Variable Q : exn -> Prop.

Lemma for_elements_all (step : nat -> A -> completion (list string))
  (l : list A) :
  Forall (fun x => forall i out, step i x = Normal out -> Forall P out) l ->
  forall i out, for_elements step l i = Normal out -> Forall P out.
Proof.
  induction 1 as [ | x l Hx _ IH]; intros i out; simpl.
  - intros H. apply Normal_inj in H. subst out. constructor.
  - destruct (step i x) as [here | ] eqn:Ehere; [ | discriminate ].
    destruct (for_elements step l (S i)) as [more | ] eqn:Emore;
      [ | discriminate ].
    simpl. intros H. apply Normal_inj in H. subst out.
    apply Forall_app. split; [ exact (Hx i here Ehere) | ].
    exact (IH (S i) more Emore).
Qed.

Lemma for_elements_raises (step : nat -> A -> completion (list string))
  (l : list A) :
  Forall (fun x => forall i e, step i x = Throw e -> Q e) l ->
  forall i e, for_elements step l i = Throw e -> Q e.
Proof.
  induction 1 as [ | x l Hx _ IH]; intros i e; simpl; [ discriminate | ].
  destruct (step i x) as [here | e1] eqn:Ehere.
  - destruct (for_elements step l (S i)) as [more | e2] eqn:Emore;
      simpl; intros H; [ discriminate H | ].
    injection H as <-. exact (IH (S i) e2 Emore).
  - simpl. intros H. injection H as <-. exact (Hx i e1 Ehere).
Qed.


Lemma for_entries_raises (step : string -> A -> completion (list string))
  (es : list (string * A)) :
  Forall (fun x => forall e, step (fst x) (snd x) = Throw e -> Q e) es ->
  forall e, for_entries step es = Throw e -> Q e.
Proof.
  induction 1 as [ | x l Hx _ IH]; intros e; simpl; [ discriminate | ].
  destruct (step (fst x) (snd x)) as [here | e1] eqn:Ehere.
  - destruct (for_entries step l) as [more | e2] eqn:Emore;
      simpl; intros H; [ discriminate H | ].
    injection H as <-. exact (IH e2 eq_refl).
  - simpl. intros H. injection H as <-. exact (Hx e1 eq_refl).
Qed.

End LoopResults.

(** ** Labels *)

Lemma append_assoc (a b c : string) : (a ++ b) ++ c = a ++ (b ++ c).
Proof.
  induction a as [ | ch a IH]; simpl; [ reflexivity | ].
  rewrite IH. reflexivity.
Qed.

Lemma labelled_intro (fieldName rest : string) :
  labelled fieldName (fieldName ++ rest).
Proof. exists rest. reflexivity. Qed.

Lemma labelled_longer (fieldName more s : string) :
  labelled (fieldName ++ more) s -> labelled fieldName s.
Proof.
  intros [rest ->]. exists (more ++ rest). apply append_assoc.
Qed.

Ltac labels :=
  repeat first
    [ apply Forall_nil
    | apply Forall_cons; [ apply labelled_intro | ]
    | apply Forall_app; split ].

Lemma string_part_labelled (v : value) (schema : Schema)
  (fieldName : string) (out : list string) :
  string_part v schema fieldName = Normal out ->
  Forall (labelled fieldName) out.
Proof.
  unfold string_part, string_checks.
  destruct v; try (intros H; apply Normal_inj in H; subst out; labels).
  destruct (type_is schema "string");
    [ | intros H; apply Normal_inj in H; subst out; labels ].
  destruct (minLength schema) as [a | ]; destruct (maxLength schema) as [b | ];
    destruct (pattern schema) as [p | ];
    try (destruct (RegExp p) as [ | test]; [ discriminate | ]);
    intros H; apply Normal_inj in H; subst out;
    repeat match goal with
           | |- context [if ?c then _ else _] => destruct c
           end; labels.
Qed.

Lemma number_part_labelled (v : value) (schema : Schema)
  (fieldName : string) :
  Forall (labelled fieldName) (number_part v schema fieldName).
Proof.
  unfold number_part, number_checks.
  repeat match goal with
         | |- context [match ?c with _ => _ end] => destruct c
         end; labels.
Qed.

Lemma enum_check_labelled (v : value) (schema : Schema)
  (fieldName : string) (out : list string) :
  enum_check v schema fieldName = Normal out ->
  Forall (labelled fieldName) out.
Proof.
  unfold enum_check.
  destruct (enum schema) as [allowed | ];
    [ | intros H; apply Normal_inj in H; subst out; labels ].
  destruct (includes allowed v);
    [ intros H; apply Normal_inj in H; subst out; labels | ].
  destruct (join ", " allowed) as [listed | ]; [ | discriminate ].
  simpl. intros H. apply Normal_inj in H. subst out. labels.
Qed.

Lemma const_check_labelled (v : value) (schema : Schema)
  (fieldName : string) (out : list string) :
  const_check v schema fieldName = Normal out ->
  Forall (labelled fieldName) out.
Proof.
  unfold const_check.
  destruct (negb (is_undefined (const schema))
            && negb (strict_equal v (const schema)));
    [ | intros H; apply Normal_inj in H; subst out; labels ].
  destruct (to_string (const schema)) as [text | ]; [ | discriminate ].
  simpl. intros H. apply Normal_inj in H. subst out. labels.
Qed.

Lemma array_checks_labelled (l : list value) (schema : Schema)
  (fieldName : string) :
  Forall (labelled fieldName) (array_checks l schema fieldName).
Proof.
  unfold array_checks.
  repeat match goal with
         | |- context [match ?c with _ => _ end] => destruct c
         end; labels.
Qed.

Lemma array_part_labelled (v : value) (schema : Schema)
  (fieldName : string) (out : list string) :
  (forall l, v = VArray l -> Forall labels_on l) ->
  array_part validateField v schema fieldName = Normal out ->
  Forall (labelled fieldName) out.
Proof.
  intros Harr. unfold array_part.
  destruct v as [ | | b | n | s | l | es];
    try (intros H; apply Normal_inj in H; subst out; labels).
  destruct (type_is schema "array");
    [ | intros H; apply Normal_inj in H; subst out; labels ].
  destruct (items schema) as [itemSchema | ].
  - match goal with
    | |- context [for_elements ?f l 0] =>
        destruct (for_elements f l 0) as [elems | ] eqn:Eelems
    end; [ | discriminate ].
    simpl. intros H. apply Normal_inj in H. subst out.
    apply Forall_app. split; [ apply array_checks_labelled | ].
    revert Eelems. apply for_elements_all.
    eapply Forall_impl; [ | exact (Harr l eq_refl) ].
    intros x Hx i found.
    destruct (validateField x itemSchema _) as [r | ] eqn:Er;
      [ | discriminate ].
    simpl. intros H. apply Normal_inj in H. subst found.
    apply Hx in Er. eapply Forall_impl; [ | exact Er ].
    intros s. apply labelled_longer.
  - simpl. intros H. apply Normal_inj in H. subst out.
    rewrite app_nil_r. apply array_checks_labelled.
Qed.

Lemma object_part_labelled (v : value) (schema : Schema)
  (fieldName : string) (out : list string) :
  object_part validateField v schema fieldName = Normal out ->
  Forall (labelled fieldName) out.
Proof.
  unfold object_part.
  destruct (type_is schema "object" && is_record v);
    [ | intros H; apply Normal_inj in H; subst out; labels ].
  destruct (validateSchema_with validateField v schema) as [r | ];
    [ | discriminate ].
  simpl. intros H. apply Normal_inj in H. subst out.
  apply Forall_forall. intros s Hs. apply in_map_iff in Hs.
  destruct Hs as [error [<- _]]. exists ("." ++ error). reflexivity.
Qed.

Lemma validateField_with_labels (v : value) :
  (forall l, v = VArray l -> Forall labels_on l) -> labels_on v.
Proof.
  intros Harr schema fieldName r.
  rewrite validateField_unfold. unfold validateField_with.
  destruct (allows_null schema && is_null v).
  { intros H. apply Normal_inj in H. subst r. constructor. }
  destruct (type_mismatch v schema fieldName) as [msg | ] eqn:Emis.
  { intros H. apply Normal_inj in H. subst r. simpl.
    unfold type_mismatch in Emis.
    destruct (expectedType schema) as [t | ]; [ | discriminate ].
    repeat match type of Emis with
           | (if ?c then _ else _) = _ => destruct c
           end; try discriminate; injection Emis as <-; labels. }
  destruct (string_part v schema fieldName) as [ss | ] eqn:Es;
    [ | discriminate ].
  destruct (enum_check v schema fieldName) as [ee | ] eqn:Ee;
    [ | discriminate ].
  destruct (const_check v schema fieldName) as [cc | ] eqn:Ec;
    [ | discriminate ].
  destruct (array_part validateField v schema fieldName) as [aa | ] eqn:Ea;
    [ | discriminate ].
  destruct (object_part validateField v schema fieldName) as [oo | ] eqn:Eo;
    [ | discriminate ].
  simpl. intros H. apply Normal_inj in H. subst r. simpl.
  repeat (apply Forall_app; split).
  - exact (string_part_labelled _ _ _ _ Es).
  - apply number_part_labelled.
  - exact (enum_check_labelled _ _ _ _ Ee).
  - exact (const_check_labelled _ _ _ _ Ec).
  - exact (array_part_labelled _ _ _ _ Harr Ea).
  - exact (object_part_labelled _ _ _ _ Eo).
Qed.

Lemma validateField_labels (v : value) : labels_on v.
Proof.
  induction v using value_ind; apply validateField_with_labels;
    intros ? E; try discriminate E; injection E as <-; assumption.
Qed.

(** X3.  Every error [validateField] reports begins with the label it was
    called with, at any depth of arrays and nested objects; validated
    against a schema whose type is not 'object', a top-level value has all
    its errors labelled 'value'. *)
Theorem errors_carry_label (v : value) (schema : Schema) :
  (forall fieldName r,
      validateField v schema fieldName = Normal r ->
      Forall (labelled fieldName) (errors r))
  /\ (type_is schema "object" = false ->
      forall r, validate v schema = Normal r ->
                Forall (labelled "value") (errors r)).
Proof.
  split.
  - intros fieldName r. apply validateField_labels.
  - intros Ht r. unfold validate. rewrite Ht. apply validateField_labels.
Qed.

(** ** What the engine raises *)

Lemma for_each_raises {A B : Type} (f : A -> completion B) (l : list A)
  (e : exn) :
  for_each f l = Throw e -> exists x, In x l /\ f x = Throw e.
Proof.
  induction l as [ | x l IH]; simpl; [ discriminate | ].
  destruct (f x) as [here | e1] eqn:Ex.
  - destruct (for_each f l) as [more | e2]; simpl; [ discriminate | ].
    intros H. injection H as <-. destruct (IH eq_refl) as [y [Hy Ey]].
    exists y. split; [ right; exact Hy | exact Ey ].
  - simpl. intros H. injection H as <-. exists x.
    split; [ left; reflexivity | exact Ex ].
Qed.

Lemma to_string_raises (v : value) (e : exn) :
  to_string v = Throw e -> e = cannot_convert.
Proof.
  revert e. induction v as [ | | b | n | s | l IH | es _] using value_ind;
    intros e; simpl; try discriminate.
  - destruct (for_each _ l) as [parts | e1] eqn:El; simpl; [ discriminate | ].
    intros H. injection H as <-.
    apply for_each_raises in El. destruct El as [x [Hx Ex]].
    pose proof (proj1 (Forall_forall _ _) IH x Hx) as IHx.
    destruct x; try discriminate Ex; exact (IHx _ Ex).
  - destruct (has_key "toString" es); [ | discriminate ].
    intros H. injection H as <-. reflexivity.
Qed.

Lemma join_raises (sep : string) (l : list value) (e : exn) :
  join sep l = Throw e -> e = cannot_convert.
Proof.
  unfold join.
  destruct (for_each _ l) as [parts | e1] eqn:El; simpl; [ discriminate | ].
  intros H. injection H as <-.
  apply for_each_raises in El. destruct El as [x [_ Ex]].
  destruct x; try discriminate Ex; exact (to_string_raises _ _ Ex).
Qed.

Lemma engine_error_inner (schema inner : Schema) (e : exn) :
  (literals_convert schema = true -> literals_convert inner = true) ->
  engine_error inner e -> engine_error schema e.
Proof.
  intros Hin [Hs | [He Hl]]; [ left; exact Hs | right ].
  split; [ exact He | ].
  destruct (literals_convert schema); [ | reflexivity ].
  rewrite (Hin eq_refl) in Hl. discriminate Hl.
Qed.

Lemma string_part_raises (v : value) (schema : Schema) (fieldName : string)
  (e : exn) :
  string_part v schema fieldName = Throw e -> syntax_error e.
Proof.
  unfold string_part, string_checks.
  destruct v; try discriminate.
  destruct (type_is schema "string"); [ | discriminate ].
  destruct (pattern schema) as [p | ]; [ | discriminate ].
  destruct (RegExp p) as [msg | test] eqn:Ep; [ | discriminate ].
  intros H. injection H as <-. exists p, msg. split; [ exact Ep | reflexivity ].
Qed.

Lemma enum_check_raises (v : value) (schema : Schema) (fieldName : string)
  (e : exn) :
  enum_check v schema fieldName = Throw e ->
  e = cannot_convert /\ literals_convert schema = false.
Proof.
  unfold enum_check.
  destruct (enum schema) as [allowed | ] eqn:Ee; [ | discriminate ].
  destruct (includes allowed v); [ discriminate | ].
  destruct (join ", " allowed) as [listed | e1] eqn:Ej; [ discriminate | ].
  simpl. intros H. injection H as <-.
  split; [ exact (join_raises _ _ _ Ej) | ].
  destruct schema; simpl in *. subst. rewrite Ej. reflexivity.
Qed.

Lemma const_check_raises (v : value) (schema : Schema) (fieldName : string)
  (e : exn) :
  const_check v schema fieldName = Throw e ->
  e = cannot_convert /\ literals_convert schema = false.
Proof.
  unfold const_check.
  destruct (negb (is_undefined (const schema))
            && negb (strict_equal v (const schema))); [ | discriminate ].
  destruct (to_string (const schema)) as [text | e1] eqn:Ec;
    [ discriminate | ].
  simpl. intros H. injection H as <-.
  split; [ exact (to_string_raises _ _ Ec) | ].
  destruct schema; simpl in *. unfold converts_to_text. rewrite Ec.
  rewrite andb_false_r. reflexivity.
Qed.

Lemma check_property_raises (schema : Schema) (key : string) (v : value)
  (e : exn) :
  raises_on v ->
  check_property validateField schema key v = Throw e ->
  engine_error schema e.
Proof.
  intros Hv. unfold check_property.
  destruct (properties schema) as [props | ] eqn:Ep; [ | discriminate ].
  destruct (properties_get props key) as [fieldSchema | ] eqn:Eg;
    [ | discriminate ].
  destruct (validateField v fieldSchema key) as [r | e1] eqn:Er;
    [ discriminate | ].
  simpl. intros H. injection H as <-.
  apply (engine_error_inner schema fieldSchema); [ | exact (Hv _ _ _ Er) ].
  intros Hl. exact (literals_convert_property _ _ _ _ Hl Ep Eg).
Qed.

Lemma validateSchema_with_raises (v : value) (schema : Schema) (e : exn) :
  (forall l, v = VArray l -> Forall raises_on l) ->
  (forall es, v = VObject es -> Forall (fun x => raises_on (snd x)) es) ->
  validateSchema_with validateField v schema = Throw e ->
  engine_error schema e.
Proof.
  intros Harr Hobj. unfold validateSchema_with.
  destruct (type_is schema "object" && is_record v).
  - destruct v as [ | | b | n | s | l | es]; try discriminate.
    + destruct (for_elements _ l 0) as [found | e1] eqn:El;
        [ discriminate | ].
      simpl. intros H. injection H as <-. revert El.
      apply for_elements_raises.
      eapply Forall_impl; [ | exact (Harr l eq_refl) ].
      intros x Hx i e2. apply check_property_raises. exact Hx.
    + destruct (for_entries _ es) as [found | e1] eqn:El;
        [ discriminate | ].
      simpl. intros H. injection H as <-. revert El.
      apply for_entries_raises.
      eapply Forall_impl; [ | exact (Hobj es eq_refl) ].
      intros x Hx e2. apply check_property_raises. exact Hx.
  - destruct (type schema); [ | destruct (typeof_differs v schema).. ];
      discriminate.
Qed.

Lemma array_part_raises (v : value) (schema : Schema) (fieldName : string)
  (e : exn) :
  (forall l, v = VArray l -> Forall raises_on l) ->
  array_part validateField v schema fieldName = Throw e ->
  engine_error schema e.
Proof.
  intros Harr. unfold array_part.
  destruct v as [ | | b | n | s | l | es]; try discriminate.
  destruct (type_is schema "array"); [ | discriminate ].
  destruct (items schema) as [itemSchema | ] eqn:Ei; [ | discriminate ].
  match goal with
  | |- context [for_elements ?f l 0] =>
      destruct (for_elements f l 0) as [elems | e1] eqn:Eelems
  end; [ discriminate | ].
  simpl. intros H. injection H as <-. revert Eelems.
  apply for_elements_raises.
  eapply Forall_impl; [ | exact (Harr l eq_refl) ].
  intros x Hx i e2.
  destruct (validateField x itemSchema _) as [r | e3] eqn:Er;
    [ discriminate | ].
  simpl. intros H. injection H as <-.
  apply (engine_error_inner schema itemSchema); [ | exact (Hx _ _ _ Er) ].
  intros Hl. exact (literals_convert_items _ _ Hl Ei).
Qed.

Lemma validateField_with_raises (v : value) :
  (forall l, v = VArray l -> Forall raises_on l) ->
  (forall es, v = VObject es -> Forall (fun x => raises_on (snd x)) es) ->
  raises_on v.
Proof.
  intros Harr Hobj schema fieldName e.
  rewrite validateField_unfold. unfold validateField_with.
  destruct (allows_null schema && is_null v); [ discriminate | ].
  destruct (type_mismatch v schema fieldName); [ discriminate | ].
  destruct (string_part v schema fieldName) as [ss | e1] eqn:Es;
    [ | simpl; intros H; injection H as <-; left;
        exact (string_part_raises _ _ _ _ Es) ].
  destruct (enum_check v schema fieldName) as [ee | e1] eqn:Ee;
    [ | simpl; intros H; injection H as <-; right;
        exact (enum_check_raises _ _ _ _ Ee) ].
  destruct (const_check v schema fieldName) as [cc | e1] eqn:Ec;
    [ | simpl; intros H; injection H as <-; right;
        exact (const_check_raises _ _ _ _ Ec) ].
  destruct (array_part validateField v schema fieldName) as [aa | e1] eqn:Ea;
    [ | simpl; intros H; injection H as <-;
        exact (array_part_raises _ _ _ _ Harr Ea) ].
  unfold object_part.
  destruct (type_is schema "object" && is_record v); [ | discriminate ].
  destruct (validateSchema_with validateField v schema) as [r | e3] eqn:Eo;
    [ discriminate | ].
  simpl. intros H. injection H as <-.
  exact (validateSchema_with_raises _ _ _ Harr Hobj Eo).
Qed.

Lemma validateField_raises (v : value) : raises_on v.
Proof.
  induction v using value_ind; apply validateField_with_raises;
    intros ? E; try discriminate E; injection E as <-; assumption.
Qed.

Lemma validate_raises (v : value) (schema : Schema) (e : exn) :
  validate v schema = Throw e -> engine_error schema e.
Proof.
  unfold validate. destruct (negb (type_is schema "object")).
  - apply validateField_raises.
  - unfold validateSchema. apply validateSchema_with_raises.
    + intros l _. apply Forall_forall. intros x _. apply validateField_raises.
    + intros es _. apply Forall_forall. intros x _.
      apply validateField_raises.
Qed.

Lemma validate_raises_syntax (v : value) (schema : Schema) (e : exn) :
  literals_convert schema = true ->
  validate v schema = Throw e -> syntax_error e.
Proof.
  intros Hl H. destruct (validate_raises _ _ _ H) as [Hs | [_ Hn]];
    [ exact Hs | ].
  rewrite Hl in Hn. discriminate Hn.
Qed.

(** X4.  Whatever the data and the schema, the engine never raises a
    [ValidationError] of its own.  What it raises is the SyntaxError of
    [new RegExp] on a pattern the runtime rejects, or the TypeError of
    writing into a message an [enum] or [const] literal that has no text
    (an object with an own [toString] property); against a schema whose
    literals all have a text, only the SyntaxError. *)
Theorem engine_raises_syntax_or_type_errors (v : value) (schema : Schema)
  (fieldName : string) (e : exn) :
  (validateField v schema fieldName = Throw e ->
   syntax_error e
   \/ e = Error "TypeError" "Cannot convert object to primitive value")
  /\ (validate v schema = Throw e ->
      syntax_error e
      \/ e = Error "TypeError" "Cannot convert object to primitive value")
  /\ (literals_convert schema = true ->
      validate v schema = Throw e -> syntax_error e).
Proof.
  split; [ | split ].
  - intros H. destruct (validateField_raises _ _ _ _ H) as [Hs | [He _]];
      [ left; exact Hs | right; exact He ].
  - intros H. destruct (validate_raises _ _ _ H) as [Hs | [He _]];
      [ left; exact Hs | right; exact He ].
  - apply validate_raises_syntax.
Qed.

Lemma validate_total (v : value) (schema : Schema) :
  patterns_compile schema = true -> literals_convert schema = true ->
  exists r, validate v schema = Normal r.
Proof.
  intros Hc Hl. unfold validate. destruct (negb (type_is schema "object")).
  - apply validateField_returns; assumption.
  - unfold validateSchema, validateSchema_with.
    destruct (type_is schema "object" && is_record v).
    + destruct (record_loop_returns v schema Hc Hl) as [found ->].
      * intros l _. apply Forall_forall. intros x _.
        apply validateField_returns.
      * intros es _. apply Forall_forall. intros x _.
        apply validateField_returns.
      * simpl. eauto.
    + destruct (type schema); [ | destruct (typeof_differs v schema).. ];
        eauto.
Qed.

(** X5.  When the runtime compiles every pattern the schema holds and every
    [enum] and [const] literal of the schema has a text, at any depth,
    [validate] returns a result on every input: records, arrays,
    primitives, [null] and [undefined]. *)
Theorem validate_returns_for_sound_schema (v : value) (schema : Schema)
  (Hc : patterns_compile schema = true)
  (Hl : literals_convert schema = true) :
  exists r, validate v schema = Normal r.
Proof. exact (validate_total v schema Hc Hl). Qed.

(** ** The typed validators in terms of the engine *)

Lemma syntax_error_not_validation (m : string) (errs : list string) :
  ~ syntax_error (ValidationError m errs).
Proof. intros [p [msg [_ H]]]. discriminate H. Qed.

Lemma typed_validator_cases (message : string) (input : value)
  (schema : Schema) :
  literals_convert schema = true ->
  let run := (result <- validate input schema ;;
              throw_unless_valid message result) in
  (run = Normal true /\ validate input schema = Normal (mkResult true []))
  \/ (exists errs, errs <> []
                   /\ validate input schema = Normal (mkResult false errs)
                   /\ run = Throw (ValidationError message errs))
  \/ (exists p msg, RegExp p = inl msg
                    /\ validate input schema
                       = Throw (Error "SyntaxError" msg)
                    /\ run = Throw (Error "SyntaxError" msg)).
Proof.
  intros Hl. simpl. destruct (validate input schema) as [r | e] eqn:Ev.
  - assert (Hc : coherent r).
    { unfold validate in Ev. destruct (negb (type_is schema "object")).
      - exact (validateField_coherent _ _ _ _ Ev).
      - exact (validateSchema_coherent _ _ _ Ev). }
    destruct r as [b errs]. unfold coherent in Hc. simpl in Hc.
    unfold throw_unless_valid. simpl. destruct b; simpl.
    + left. rewrite (proj1 Hc eq_refl). split; reflexivity.
    + right. left. exists errs. repeat split.
      intros E. apply Hc in E. discriminate E.
  - right. right.
    destruct (validate_raises_syntax _ _ _ Hl Ev) as [p [msg [Hp ->]]].
    exists p, msg. repeat split. exact Hp.
Qed.

Lemma typed_validator_outcome (message : string) (schema : Schema) :
  literals_convert schema = true ->
  typed_outcome
    (fun input => result <- validate input schema ;;
                  throw_unless_valid message result) schema message.
Proof.
  intros Hl input.
  destruct (typed_validator_cases message input schema Hl)
    as [[-> Hv] | [[errs [Hne [Hv ->]]] | [p [msg [Hp [Hv ->]]]]]].
  - split; [ reflexivity | exact Hv ].
  - repeat split; assumption.
  - split; [ exists p, msg; split; [ exact Hp | reflexivity ] | exact Hv ].
Qed.

(** X6.  Each typed validator returns [true] or raises, never [false]: it
    returns exactly when the engine finds the input valid against the
    kind's schema; a [ValidationError] it raises has the kind's fixed
    message and the engine's error list, which is never empty; anything
    else it raises is the engine's SyntaxError. *)
Theorem typed_validators_outcome :
  typed_outcome validateFeature FEATURE_SCHEMA "Feature validation failed"
  /\ typed_outcome validateBug BUG_SCHEMA "Bug validation failed"
  /\ typed_outcome validateTask TASK_SCHEMA "Task validation failed"
  /\ typed_outcome validateProjectData PROJECT_DATA_SCHEMA
       "Project data validation failed".
Proof.
  split; [ | split; [ | split ] ]; apply typed_validator_outcome;
    reflexivity.
Qed.

Lemma try_catch_invariants (message : string) (schema : Schema)
  (input : value) :
  literals_convert schema = true ->
  let s := try_catch (result <- validate input schema ;;
                      throw_unless_valid message result) input in
  (valid (outcome s) = true <-> errors (outcome s) = [])
  /\ (valid (outcome s) = true <-> data s = Some input)
  /\ (valid (outcome s) = false <-> data s = None).
Proof.
  intros Hl.
  destruct (typed_validator_cases message input schema Hl)
    as [[E _] | [[errs [Hne [_ E]]] | [p [msg [_ [_ E]]]]]];
    simpl in E; simpl; rewrite E; simpl.
  - repeat split; intros H; try reflexivity; discriminate H.
  - repeat split; intros H; try reflexivity; try discriminate H.
    contradiction.
  - repeat split; intros H; try reflexivity; discriminate H.
Qed.

(** X7.  For every input and kind, the result of the kind's [tryValidate*]
    is valid exactly when its error list is empty, exactly when [data] is
    present (and is then the input); an invalid result has no [data] and at
    least one error. *)
Theorem tryValidate_invariants (k : Kind) (input : value) :
  let s := tryValidateKind k input in
  (valid (outcome s) = true <-> errors (outcome s) = [])
  /\ (valid (outcome s) = true <-> data s = Some input)
  /\ (valid (outcome s) = false <-> data s = None).
Proof.
  destruct k; apply try_catch_invariants; reflexivity.
Qed.

(** X8.  [validateProjectItem] returns, and then returns [true], exactly
    when the input is a non-null record whose [type] tag is the tag of a
    kind and the engine finds it valid against that kind's schema. *)
Theorem validateProjectItem_accepts (input : value) (b : bool) :
  validateProjectItem input = Normal b
  <-> b = true
      /\ is_record input = true
      /\ exists k : Kind,
           get input "type" = VString (kind_tag k)
           /\ validate input (schema_of k) = Normal (mkResult true []).
Proof.
  unfold validateProjectItem, is_record.
  destruct (typeof input =? "object") eqn:Et; simpl.
  2:{ split; [ discriminate | ]. intros [_ [H _]]. discriminate H. }
  destruct (is_null input) eqn:En; simpl.
  { split; [ discriminate | ]. intros [_ [H _]]. discriminate H. }
  assert (Hrun : forall k,
             validateKind k input = Normal b
             <-> b = true
                 /\ validate input (schema_of k) = Normal (mkResult true [])).
  { intros k.
    assert (Hcases := typed_validator_cases
                        (match k with
                         | Feature => "Feature validation failed"
                         | Bug => "Bug validation failed"
                         | Task => "Task validation failed"
                         end) input (schema_of k)
                        (entity_literals_convert k)).
    assert (Hdef : validateKind k input
                   = (result <- validate input (schema_of k) ;;
                      throw_unless_valid
                        (match k with
                         | Feature => "Feature validation failed"
                         | Bug => "Bug validation failed"
                         | Task => "Task validation failed"
                         end) result)) by (destruct k; reflexivity).
    simpl in Hcases. rewrite <- Hdef in Hcases.
    destruct Hcases as [[E Hv] | [[errs [Hne [Hv E]]] | [p [msg [_ [Hv E]]]]]];
      rewrite E, Hv; split.
    - intros H. apply Normal_inj in H. subst b. split; reflexivity.
    - intros [-> _]. reflexivity.
    - discriminate.
    - intros [_ H]. apply Normal_inj in H. discriminate H.
    - discriminate.
    - intros [_ H]. discriminate H. }
  destruct (strict_equal (get input "type") (VString "feature")) eqn:Ef.
  { apply strict_equal_string in Ef. rewrite (Hrun Feature). split.
    - intros [Hb Hv]. repeat split; [ exact Hb | ].
      exists Feature. split; assumption.
    - intros [Hb [_ [k [Hk Hv]]]]. split; [ exact Hb | ].
      rewrite Ef in Hk. destruct k; try discriminate Hk. exact Hv. }
  destruct (strict_equal (get input "type") (VString "bug")) eqn:Eb.
  { apply strict_equal_string in Eb. rewrite (Hrun Bug). split.
    - intros [Hb Hv]. repeat split; [ exact Hb | ].
      exists Bug. split; assumption.
    - intros [Hb [_ [k [Hk Hv]]]]. split; [ exact Hb | ].
      rewrite Eb in Hk. destruct k; try discriminate Hk. exact Hv. }
  destruct (strict_equal (get input "type") (VString "task")) eqn:Ek.
  { apply strict_equal_string in Ek. rewrite (Hrun Task). split.
    - intros [Hb Hv]. repeat split; [ exact Hb | ].
      exists Task. split; assumption.
    - intros [Hb [_ [k [Hk Hv]]]]. split; [ exact Hb | ].
      rewrite Ek in Hk. destruct k; try discriminate Hk. exact Hv. }
  split.
  - unfold invalid_type_message.
    destruct (to_string (get input "type")); discriminate.
  - intros [_ [_ [k [Hk _]]]].
    destruct k; simpl in Hk; rewrite Hk in Ef, Eb, Ek; simpl in Ef, Eb, Ek;
      discriminate.
Qed.

(** ** What the leaf schemas accept *)

Lemma includes_strings (values : list string) (s : string) :
  includes (map VString values) (VString s) = true <-> In s values.
Proof.
  unfold includes. rewrite existsb_exists. split.
  - intros [x [Hin Heq]]. apply in_map_iff in Hin.
    destruct Hin as [t [<- Hin]]. simpl in Heq.
    apply String.eqb_eq in Heq. subst. exact Hin.
  - intros Hin. exists (VString s). split.
    + apply in_map. exact Hin.
    + simpl. apply String.eqb_refl.
Qed.

Lemma result_of_valid_iff (errs : list string) :
  valid (result_of errs) = true <-> errs = [].
Proof. apply result_of_coherent. Qed.

Lemma for_each_strings (l : list string) :
  for_each (fun x => match x with
                     | VUndefined | VNull => Normal ""
                     | _ => to_string x
                     end) (map VString l) = Normal l.
Proof.
  induction l as [ | x l IH]; [ reflexivity | ].
  simpl. simpl in IH. rewrite IH. reflexivity.
Qed.

Lemma join_strings (sep : string) (l : list string) :
  join sep (map VString l) = Normal (String.concat sep l).
Proof. unfold join. rewrite for_each_strings. reflexivity. Qed.

Lemma enum_field_accepts (values : list string) (v : value)
  (fieldName : string) :
  exists r,
    validateField v (createEnumSchema values) fieldName = Normal r
    /\ (valid r = true <-> exists s, v = VString s /\ In s values).
Proof.
  destruct v as [ | | b | n | s | l | es];
    try (eexists; split; [ reflexivity | ];
         split; [ intros H; discriminate H
                | intros [s [H _]]; discriminate H ]).
  rewrite string_field_errors by reflexivity.
  unfold string_checks, enum_check, const_check. simpl enum. simpl const.
  simpl.
  destruct (includes (map VString values) (VString s)) eqn:Ei.
  - eexists. split; [ reflexivity | ].
    apply includes_strings in Ei. split; [ | reflexivity ].
    intros _. exists s. split; [ reflexivity | exact Ei ].
  - rewrite join_strings. eexists. split; [ reflexivity | ].
    split; [ discriminate | ].
    intros [t [Ht Hin]]. injection Ht as <-.
    apply includes_strings in Hin. rewrite Hin in Ei. discriminate Ei.
Qed.

(** X9.  A schema built by [createEnumSchema] accepts exactly the strings
    of the list it was built from: any other string gets the 'Must be one
    of' error, and a value that is no string (null included) the type
    error. *)
Theorem enum_schema_accepts (values : list string) (v : value)
  (fieldName : string) :
  exists r,
    validateField v (createEnumSchema values) fieldName = Normal r
    /\ (valid r = true <-> exists s, v = VString s /\ In s values).
Proof. apply enum_field_accepts; assumption. Qed.

Lemma const_field_accepts (c : string) (v : value) (fieldName : string) :
  exists r,
    validateField v (const_schema c) fieldName = Normal r
    /\ (valid r = true <-> v = VString c).
Proof.
  destruct v as [ | | b | n | s | l | es];
    try (eexists; split; [ reflexivity | ];
         split; intros H; discriminate H).
  assert (E : validateField (VString s) (const_schema c) fieldName
               = Normal (result_of (if String.eqb s c then []
                                    else [fieldName ++ ": Must be " ++ c]))).
  { rewrite validateField_unfold.
    unfold validateField_with, const_check, const_schema. simpl.
    destruct (String.eqb s c); reflexivity. }
  rewrite E. eexists. split; [ reflexivity | ].
  destruct (String.eqb_spec s c) as [-> | Hne]; simpl.
  - split; reflexivity.
  - split; [ discriminate | ]. intros H. injection H as H. contradiction.
Qed.

(** X10.  A [{ const: c }] schema, the shape of every [type] property,
    accepts the string [c] and nothing else: no other string, no value of
    another kind, not [null] and not [undefined]. *)
Theorem const_schema_accepts (c : string) (v : value) (fieldName : string) :
  exists r,
    validateField v (const_schema c) fieldName = Normal r
    /\ (valid r = true <-> v = VString c).
Proof. apply const_field_accepts; assumption. Qed.

Lemma string_field_accepts (minL maxL : option nat)
  (pat fmt : option string) (test : string -> bool) (v : value)
  (fieldName : string)
  (Hpat : forall p, pat = Some p -> RegExp p = inr test) :
  exists r,
    validateField v (string_schema minL maxL pat fmt) fieldName = Normal r
    /\ (valid r = true
        <-> exists s,
              v = VString s
              /\ (forall m, minL = Some m -> m <= String.length s)
              /\ (forall m, maxL = Some m -> String.length s <= m)
              /\ (pat <> None -> test s = true)).
Proof.
  destruct v as [ | | b | n | s | l | es];
    try (eexists; split; [ reflexivity | ];
         split; [ intros H; discriminate H
                | intros [s [H _]]; discriminate H ]).
  rewrite string_field_errors by reflexivity.
  unfold string_checks, enum_check, const_check. simpl.
  assert (Hstr : forall P : string -> Prop,
             P s -> exists t, VString s = VString t /\ P t)
    by (intros P HP; exists s; split; [ reflexivity | exact HP ]).
  assert (Hinv : forall P : string -> Prop,
             (exists t, VString s = VString t /\ P t) -> P s)
    by (intros P [t [E HP]]; injection E as <-; exact HP).
  destruct pat as [p | ].
  - rewrite (Hpat p eq_refl). eexists. split; [ reflexivity | ].
    rewrite result_of_valid_iff, !app_nil_r. split.
    + intros H. apply app_eq_nil in H. destruct H as [Hmin H].
      apply app_eq_nil in H. destruct H as [Hmax Htest].
      apply Hstr. repeat split.
      * intros m ->. destruct (Nat.ltb_spec (String.length s) m);
          [ discriminate Hmin | assumption ].
      * intros m ->. destruct (Nat.ltb_spec m (String.length s));
          [ discriminate Hmax | assumption ].
      * intros _. destruct (test s); [ reflexivity | discriminate Htest ].
    + intros H. apply Hinv in H. destruct H as [Hmin [Hmax Htest]].
      rewrite Htest by discriminate.
      destruct minL as [a | ]; destruct maxL as [c | ];
        repeat match goal with
               | |- context [(?x <? ?y)%nat] =>
                   destruct (Nat.ltb_spec x y)
               end; try reflexivity; exfalso;
        repeat match goal with
               | H : forall m, Some ?a = Some m -> _ |- _ =>
                   specialize (H a eq_refl)
               end;
        repeat match goal with
               | H1 : ?x < ?y, H2 : ?y <= ?x |- _ =>
                   exact (Nat.lt_irrefl _ (Nat.lt_le_trans _ _ _ H1 H2))
               end.
  - eexists. split; [ reflexivity | ].
    rewrite result_of_valid_iff, !app_nil_r. split.
    + intros H. apply app_eq_nil in H. destruct H as [Hmin Hmax].
      apply Hstr. repeat split.
      * intros m ->. destruct (Nat.ltb_spec (String.length s) m);
          [ discriminate Hmin | assumption ].
      * intros m ->. destruct (Nat.ltb_spec m (String.length s));
          [ discriminate Hmax | assumption ].
      * intros H. contradiction.
    + intros H. apply Hinv in H. destruct H as [Hmin [Hmax _]].
      destruct minL as [a | ]; destruct maxL as [c | ];
        repeat match goal with
               | |- context [(?x <? ?y)%nat] =>
                   destruct (Nat.ltb_spec x y)
               end; try reflexivity; exfalso;
        repeat match goal with
               | H : forall m, Some ?a = Some m -> _ |- _ =>
                   specialize (H a eq_refl)
               end;
        repeat match goal with
               | H1 : ?x < ?y, H2 : ?y <= ?x |- _ =>
                   exact (Nat.lt_irrefl _ (Nat.lt_le_trans _ _ _ H1 H2))
               end.
Qed.

(** X11.  Under [type: 'string'] a value is accepted exactly when it is a
    string within the declared length bounds that the declared pattern
    matches; the [format] keyword plays no part, so a 'date-time' property
    accepts every string. *)
Theorem string_schema_accepts (minL maxL : option nat)
  (pat fmt : option string) (test : string -> bool) (v : value)
  (fieldName : string)
  (Hpat : forall p, pat = Some p -> RegExp p = inr test) :
  exists r,
    validateField v (string_schema minL maxL pat fmt) fieldName = Normal r
    /\ (valid r = true
        <-> exists s,
              v = VString s
              /\ (forall m, minL = Some m -> m <= String.length s)
              /\ (forall m, maxL = Some m -> String.length s <= m)
              /\ (pat <> None -> test s = true)).
Proof.
  exact (string_field_accepts minL maxL pat fmt test v fieldName Hpat).
Qed.

(** ** Arrays *)

Lemma for_elements_silent {A : Type}
  (step : nat -> A -> completion (list string)) (l : list A) (i : nat) :
  for_elements step l i = Normal []
  <-> forall j x, nth_error l j = Some x -> step (i + j) x = Normal [].
Proof.
  revert i. induction l as [ | a l IH]; intros i; simpl.
  - split; [ intros _ [ | j] x H; discriminate H | reflexivity ].
  - split.
    + intros H.
      destruct (step i a) as [here | ] eqn:Ehere; [ | discriminate ].
      destruct (for_elements step l (S i)) as [more | ] eqn:Emore;
        [ | discriminate ].
      simpl in H. apply Normal_inj in H. apply app_eq_nil in H.
      destruct H as [-> ->].
      intros [ | j] x Hx; simpl in Hx.
      * injection Hx as <-. rewrite Nat.add_0_r. exact Ehere.
      * replace (i + S j) with (S i + j) by lia.
        apply (proj1 (IH (S i)) Emore). exact Hx.
    + intros H. rewrite <- (Nat.add_0_r i) at 1.
      rewrite (H 0 a eq_refl). simpl.
      replace (for_elements step l (S i)) with (@Normal (list string) []);
        [ reflexivity | ].
      symmetry. apply IH. intros j x Hx.
      replace (S i + j) with (i + S j) by lia. apply H. exact Hx.
Qed.

Lemma array_field_errors (l : list value) (schema itemSchema : Schema)
  (fieldName : string) :
  type schema = TypeName "array" -> items schema = Some itemSchema ->
  enum schema = None -> const schema = VUndefined ->
  validateField (VArray l) schema fieldName
  = (elems <- for_elements
                (fun i x =>
                   itemResult <-
                     validateField x itemSchema
                       (fieldName ++ "[" ++ string_of_nat i ++ "]") ;;
                   Normal (errors itemResult)) l 0 ;;
     Normal (result_of (array_checks l schema fieldName ++ elems))).
Proof.
  intros Ht Hi He Hc. rewrite validateField_unfold.
  unfold validateField_with, allows_null, type_mismatch, expectedType,
    string_part, number_part, array_part, object_part, type_is,
    enum_check, const_check.
  rewrite Ht, Hi, He, Hc. simpl.
  destruct (for_elements _ l 0) as [elems | e]; [ | reflexivity ].
  simpl. rewrite app_nil_r. reflexivity.
Qed.

Lemma array_field_mismatch (v : value) (schema : Schema)
  (fieldName : string) :
  type schema = TypeName "array" -> Array_isArray v = false ->
  validateField v schema fieldName
  = Normal (mkResult false
              [fieldName ++ ": Expected array, got " ++ typeof v]).
Proof.
  intros Ht Hv. rewrite validateField_unfold.
  unfold validateField_with, allows_null, type_mismatch, expectedType.
  rewrite Ht, Hv. reflexivity.
Qed.

(** an array field whose item schema accepts exactly the values [ok] *)
Lemma array_field_accepts (schema itemSchema : Schema) (ok : value -> Prop)
  (l : list value) (fieldName : string) :
  type schema = TypeName "array" -> items schema = Some itemSchema ->
  enum schema = None -> const schema = VUndefined ->
  (forall x label,
      exists r, validateField x itemSchema label = Normal r
                /\ (valid r = true <-> ok x)) ->
  exists r,
    validateField (VArray l) schema fieldName = Normal r
    /\ (valid r = true
        <-> array_checks l schema fieldName = [] /\ Forall ok l).
Proof.
  intros Ht Hi He Hc Hitem.
  rewrite (array_field_errors _ _ _ _ Ht Hi He Hc).
  set (step := fun (i : nat) (x : value) =>
                 itemResult <-
                   validateField x itemSchema
                     (fieldName ++ "[" ++ string_of_nat i ++ "]") ;;
                 Normal (errors itemResult)).
  assert (Hstep : forall i x,
             exists out, step i x = Normal out /\ (out = [] <-> ok x)).
  { intros i x. unfold step.
    destruct (Hitem x (fieldName ++ "[" ++ string_of_nat i ++ "]"))
      as [r [Er Hr]].
    rewrite Er. simpl. exists (errors r). split; [ reflexivity | ].
    rewrite <- Hr. symmetry. exact (validateField_coherent _ _ _ _ Er). }
  destruct (for_elements_returns step l) with (i := 0) as [elems Eelems].
  { apply Forall_forall. intros x _ i.
    destruct (Hstep i x) as [out [Eout _]]. eauto. }
  rewrite Eelems. simpl. eexists. split; [ reflexivity | ].
  rewrite result_of_valid_iff. split.
  - intros H. apply app_eq_nil in H. destruct H as [Hchecks ->].
    split; [ exact Hchecks | ].
    apply Forall_forall. intros x Hx. apply In_nth_error in Hx.
    destruct Hx as [j Hj].
    pose proof (proj1 (for_elements_silent step l 0) Eelems j x Hj) as Hs.
    destruct (Hstep (0 + j) x) as [out [Eout Hout]].
    rewrite Eout in Hs. apply Normal_inj in Hs. apply Hout. exact Hs.
  - intros [-> Hall]. simpl.
    assert (Hsilent : for_elements step l 0 = Normal []).
    { apply for_elements_silent. intros j x Hj.
      destruct (Hstep (0 + j) x) as [out [Eout Hout]].
      rewrite Eout. f_equal. apply Hout.
      apply (proj1 (Forall_forall _ _) Hall). eapply nth_error_In. exact Hj. }
    rewrite Hsilent in Eelems. apply Normal_inj in Eelems. symmetry.
    exact Eelems.
Qed.

Lemma strings_of_values (P : string -> Prop) (l : list value) :
  Forall (fun x => exists s, x = VString s /\ P s) l
  <-> exists ss, l = map VString ss /\ Forall P ss.
Proof.
  split.
  - induction 1 as [ | x l [s [-> Hs]] _ [ss [-> Hss]]].
    + exists []. split; [ reflexivity | constructor ].
    + exists (s :: ss). split; [ reflexivity | constructor; assumption ].
  - intros [ss [-> Hss]]. induction Hss as [ | s ss Hs _ IH]; simpl;
      constructor; [ exists s; split; [ reflexivity | exact Hs ] | exact IH ].
Qed.

Lemma nonempty_string_item (x : value) (label : string) :
  exists r,
    validateField x (string_schema (Some 1) None None None) label = Normal r
    /\ (valid r = true <-> exists s, x = VString s /\ s <> "").
Proof.
  destruct (string_field_accepts (Some 1) None None None (fun _ => true)
              x label) as [r [Er Hr]]; [ discriminate | ].
  exists r. split; [ exact Er | ]. rewrite Hr. split.
  - intros [s [-> [Hmin _]]]. exists s. split; [ reflexivity | ].
    intros ->. specialize (Hmin 1 eq_refl). simpl in Hmin. lia.
  - intros [s [-> Hne]]. exists s. split; [ reflexivity | ].
    split; [ | split ].
    + intros m Hm. injection Hm as <-. destruct s; [ contradiction | ].
      simpl. lia.
    + discriminate.
    + intros H. contradiction.
Qed.

Lemma criteria_field_accepts (v : value) (fieldName : string) :
  let schema :=
    array_schema (string_schema (Some 1) None None None) (Some 1) false in
  property FEATURE_SCHEMA "acceptanceCriteria" = Some schema
  /\ property BUG_SCHEMA "stepsToReproduce" = Some schema
  /\ exists r,
       validateField v schema fieldName = Normal r
       /\ (valid r = true
           <-> exists ss, v = VArray (map VString ss)
                          /\ ss <> [] /\ Forall (fun s => s <> "") ss).
Proof.
  intros schema. split; [ reflexivity | ]. split; [ reflexivity | ].
  destruct v as [ | | b | n | s | l | es];
    try (rewrite array_field_mismatch by reflexivity;
         eexists; split; [ reflexivity | ];
         split; [ intros H; discriminate H
                | intros [ss [H _]]; discriminate H ]).
  destruct (array_field_accepts schema
              (string_schema (Some 1) None None None)
              (fun x => exists s, x = VString s /\ s <> "") l fieldName)
    as [r [Er Hr]]; try reflexivity.
  { intros x label. apply nonempty_string_item. }
  exists r. split; [ exact Er | ]. rewrite Hr.
  rewrite strings_of_values. unfold array_checks, schema. simpl.
  split.
  - intros [Hlen [ss [-> Hss]]]. exists ss. repeat split; [ | exact Hss ].
    intros ->. discriminate Hlen.
  - intros [ss [E [Hne Hss]]]. injection E as ->. split.
    + destruct ss; [ contradiction | reflexivity ].
    + exists ss. split; [ reflexivity | exact Hss ].
Qed.

(** X12.  The schema of [acceptanceCriteria] and of [stepsToReproduce]
    accepts exactly the non-empty arrays of non-empty strings: an empty
    array, an empty string element, a non-string element or a value that is
    no array are all rejected. *)
Theorem criteria_schema_accepts (v : value) (fieldName : string) :
  let schema :=
    array_schema (string_schema (Some 1) None None None) (Some 1) false in
  property FEATURE_SCHEMA "acceptanceCriteria" = Some schema
  /\ property BUG_SCHEMA "stepsToReproduce" = Some schema
  /\ exists r,
       validateField v schema fieldName = Normal r
       /\ (valid r = true
           <-> exists ss, v = VArray (map VString ss)
                          /\ ss <> [] /\ Forall (fun s => s <> "") ss).
Proof. apply criteria_field_accepts; assumption. Qed.

Lemma Set_size_from_le (seen l : list value) :
  Set_size_from seen l <= length l.
Proof.
  revert seen. induction l as [ | x l IH]; intros seen; simpl; [ lia | ].
  destruct (includes seen x).
  - specialize (IH seen). lia.
  - specialize (IH (x :: seen)). lia.
Qed.

Lemma Set_size_strings (seen l : list string) :
  Set_size_from (map VString seen) (map VString l) = length l
  <-> NoDup l /\ forall x, In x l -> ~ In x seen.
Proof.
  revert seen. induction l as [ | x l IH]; intros seen; simpl.
  - split; [ intros _; split; [ constructor | intros ? [] ] | reflexivity ].
  - destruct (includes (map VString seen) (VString x)) eqn:Ei.
    + apply includes_strings in Ei. split.
      * intros H.
        pose proof (Set_size_from_le (map VString seen) (map VString l)) as Hle.
        rewrite length_map in Hle. lia.
      * intros [_ H]. exfalso. apply (H x); [ left; reflexivity | exact Ei ].
    + assert (Hx : ~ In x seen).
      { intros H. apply includes_strings in H. rewrite H in Ei.
        discriminate Ei. }
      split.
      * intros H. injection H as H. apply (IH (x :: seen)) in H.
        destruct H as [Hnd Hfresh].
        split.
        -- constructor; [ | exact Hnd ].
           intros Hin. apply (Hfresh x Hin). left. reflexivity.
        -- intros y [<- | Hy]; [ exact Hx | ].
           intros Hs. apply (Hfresh y Hy). right. exact Hs.
      * intros [Hnd Hfresh]. f_equal. apply (IH (x :: seen)).
        inversion Hnd as [ | ? ? Hnotin Hnd']; subst. split; [ exact Hnd' | ].
        intros y Hy [<- | Hs]; [ contradiction | ].
        apply (Hfresh y); [ right; exact Hy | exact Hs ].
Qed.

Lemma subtasks_field_accepts (sub : Schema) (test : string -> bool)
  (v : value) (fieldName : string)
  (Hsub : property TASK_SCHEMA "subtasks" = Some sub)
  (Hre : RegExp id_pattern = inr test) :
  exists r,
    validateField v sub fieldName = Normal r
    /\ (valid r = true
        <-> exists ids, v = VArray (map VString ids)
                        /\ NoDup ids
                        /\ Forall (fun s => test s = true) ids).
Proof.
  cbv in Hsub. injection Hsub as <-. fold id_pattern.
  destruct v as [ | | b | n | s | l | es];
    try (rewrite array_field_mismatch by reflexivity;
         eexists; split; [ reflexivity | ];
         split; [ intros H; discriminate H
                | intros [ss [H _]]; discriminate H ]).
  match goal with
  | |- context [validateField _ ?schema _] =>
      destruct (array_field_accepts schema
                  (string_schema None None (Some id_pattern) None)
                  (fun x => exists s, x = VString s /\ test s = true)
                  l fieldName) as [r [Er Hr]]; try reflexivity
  end.
  { intros x label.
    destruct (string_field_accepts None None (Some id_pattern) None test
                x label) as [r [Er Hr]].
    { intros p Hp. injection Hp as <-. exact Hre. }
    exists r. split; [ exact Er | ]. rewrite Hr. split.
    - intros [s [-> [_ [_ Ht]]]]. exists s. split; [ reflexivity | ].
      apply Ht. discriminate.
    - intros [s [-> Ht]]. exists s. split; [ reflexivity | ].
      split; [ discriminate | ]. split; [ discriminate | ].
      intros _. exact Ht. }
  exists r. split; [ exact Er | ]. rewrite Hr.
  rewrite strings_of_values. unfold array_checks. simpl. split.
  - intros [Hsize [ids [-> Hids]]]. exists ids.
    split; [ reflexivity | ]. split; [ | exact Hids ].
    destruct (Nat.eqb_spec (Set_size (map VString ids))
                (length (map VString ids))) as [E | ]; [ | discriminate ].
    rewrite length_map in E.
    apply (Set_size_strings [] ids) in E. exact (proj1 E).
  - intros [ids [E [Hnd Hids]]]. injection E as ->. split.
    + replace (Set_size (map VString ids) =? length (map VString ids))%nat
        with true; [ reflexivity | ].
      symmetry. apply Nat.eqb_eq. rewrite length_map.
      apply (Set_size_strings [] ids). split; [ exact Hnd | ].
      intros x _ [].
    + exists ids. split; [ reflexivity | exact Hids ].
Qed.

(** X13.  On a runtime that compiles the identifier pattern, the schema of
    a task's [subtasks] accepts exactly the arrays of strings that all
    match the pattern and are pairwise distinct; the empty array is
    accepted, one repeated identifier is enough to reject. *)
Theorem subtasks_schema_accepts (sub : Schema) (test : string -> bool)
  (v : value) (fieldName : string)
  (Hsub : property TASK_SCHEMA "subtasks" = Some sub)
  (Hre : RegExp id_pattern = inr test) :
  exists r,
    validateField v sub fieldName = Normal r
    /\ (valid r = true
        <-> exists ids, v = VArray (map VString ids)
                        /\ NoDup ids
                        /\ Forall (fun s => test s = true) ids).
Proof. apply subtasks_field_accepts; assumption. Qed.

(** ** What a valid entity looks like *)

Lemma lookup_In_key {A : Type} (key : string) (l : list (string * A)) (a : A) :
  lookup key l = Some a -> In (key, a) l.
Proof.
  induction l as [ | [k b] l IH]; simpl; [ discriminate | ].
  destruct (String.eqb_spec k key) as [-> | _].
  - intros H. injection H as ->. left. reflexivity.
  - intros H. right. exact (IH H).
Qed.

Lemma has_key_lookup {A : Type} (key : string) (l : list (string * A)) :
  has_key key l = true -> exists a, lookup key l = Some a.
Proof.
  unfold has_key. induction l as [ | [k b] l IH]; simpl; [ discriminate | ].
  destruct (k =? key); simpl; eauto.
Qed.

Lemma valid_record_lookup (schema fieldSchema : Schema)
  (es : list (string * value)) (name : string) :
  type schema = TypeName "object" ->
  validate (VObject es) schema = Normal (mkResult true []) ->
  In name (required_names schema) ->
  mem name Object_prototype_keys = false ->
  property schema name = Some fieldSchema ->
  exists v r, lookup name es = Some v
              /\ validateField v fieldSchema name = Normal r
              /\ valid r = true.
Proof.
  intros Ht Hvalid Hreq Hown Hprop.
  apply (validate_record_valid _ _ Ht) in Hvalid.
  destruct Hvalid as [Hfound Hmissing].
  pose proof (proj1 (required_errors_nil _ _) Hmissing name Hreq) as Hhas.
  unfold has_property in Hhas. rewrite Hown, orb_false_r in Hhas.
  destruct (has_key_lookup _ _ Hhas) as [v Hv].
  apply for_entries_silent in Hfound.
  pose proof (proj1 (Forall_forall _ _) Hfound _ (lookup_In_key _ _ _ Hv))
    as Hstep.
  simpl in Hstep. unfold check_property, properties_get in Hstep.
  unfold property in Hprop.
  destruct (properties schema) as [props | ]; [ | discriminate ].
  rewrite Hprop in Hstep.
  destruct (validateField v fieldSchema name) as [r | ] eqn:Er;
    [ | discriminate ].
  simpl in Hstep. apply Normal_inj in Hstep.
  exists v, r. split; [ exact Hv | ]. split; [ exact Er | ].
  apply (validateField_coherent _ _ _ _ Er). exact Hstep.
Qed.

Lemma string_field_valid (minL maxL : option nat) (pat fmt : option string)
  (v : value) (fieldName : string) (r : ValidationResult) :
  validateField v (string_schema minL maxL pat fmt) fieldName = Normal r ->
  valid r = true ->
  exists s,
    v = VString s
    /\ (forall m, minL = Some m -> m <= String.length s)
    /\ (forall m, maxL = Some m -> String.length s <= m)
    /\ (forall p, pat = Some p ->
                  exists test, RegExp p = inr test /\ test s = true).
Proof.
  intros Er Hr.
  assert (Hcompiles : exists test, forall p, pat = Some p ->
                                             RegExp p = inr test).
  { destruct pat as [p | ];
      [ | exists (fun _ => true); intros p Hp; discriminate Hp ].
    destruct (RegExp p) as [msg | test] eqn:Ep.
    - exfalso. destruct v as [ | | b | n | s | l | es];
        try (apply Normal_inj in Er; subst r; discriminate Hr).
      rewrite string_field_errors in Er by reflexivity.
      unfold string_checks in Er. simpl in Er. rewrite Ep in Er.
      discriminate Er.
    - exists test. intros q Hq. injection Hq as <-. exact Ep. }
  destruct Hcompiles as [test Htest].
  destruct (string_field_accepts minL maxL pat fmt test v fieldName Htest)
    as [r' [Er' Hr']].
  rewrite Er in Er'. apply Normal_inj in Er'. subst r'.
  apply Hr' in Hr. destruct Hr as [s [-> [Hmin [Hmax Hmatch]]]].
  exists s. split; [ reflexivity | ]. split; [ exact Hmin | ].
  split; [ exact Hmax | ].
  intros p Hp. exists test. split; [ exact (Htest p Hp) | ].
  apply Hmatch. rewrite Hp. discriminate.
Qed.

Lemma enum_field_valid (values : list string) (v : value)
  (fieldName : string) (r : ValidationResult) :
  validateField v (createEnumSchema values) fieldName = Normal r ->
  valid r = true -> exists s, v = VString s /\ In s values.
Proof.
  intros Er Hr.
  destruct (enum_field_accepts values v fieldName) as [r' [Er' Hr']].
  rewrite Er in Er'. apply Normal_inj in Er'. subst r'.
  apply Hr'. exact Hr.
Qed.

Lemma const_field_valid (c : string) (v : value) (fieldName : string)
  (r : ValidationResult) :
  validateField v (const_schema c) fieldName = Normal r ->
  valid r = true -> v = VString c.
Proof.
  intros Er Hr.
  destruct (const_field_accepts c v fieldName) as [r' [Er' Hr']].
  rewrite Er in Er'. apply Normal_inj in Er'. subst r'.
  apply Hr'. exact Hr.
Qed.

Lemma entity_is_object (k : Kind) : type (schema_of k) = TypeName "object".
Proof. destruct k; reflexivity. Qed.

Ltac entity_field k name fieldSchema Hvalid v r Hv Er Hr :=
  destruct (valid_record_lookup (schema_of k) fieldSchema _ name
              (entity_is_object k) Hvalid) as [v [r [Hv [Er Hr]]]];
  [ destruct k; simpl; tauto | reflexivity | destruct k; reflexivity | ].

(** X14.  A record the engine finds valid against the schema of a kind
    has, under its first binding of each name: the kind's tag as [type]; a
    non-empty [id] the identifier pattern matches; a [title] of 1 to 200
    code units; a [description] of at most 2000; a [status] of the kind; a
    [priority] of the list; strings as [createdAt] and [updatedAt]. *)
Theorem valid_entity_base_fields (k : Kind) (es : list (string * value))
  (Hvalid : validate (VObject es) (schema_of k) = Normal (mkResult true [])) :
  exists (id title description status priority createdAt updatedAt : string)
         (test : string -> bool),
    lookup "type" es = Some (VString (kind_tag k))
    /\ lookup "id" es = Some (VString id)
    /\ RegExp id_pattern = inr test /\ test id = true /\ id <> ""
    /\ lookup "title" es = Some (VString title)
    /\ 1 <= String.length title <= 200
    /\ lookup "description" es = Some (VString description)
    /\ String.length description <= 2000
    /\ lookup "status" es = Some (VString status) /\ In status (statuses k)
    /\ lookup "priority" es = Some (VString priority)
    /\ In priority PRIORITIES
    /\ lookup "createdAt" es = Some (VString createdAt)
    /\ lookup "updatedAt" es = Some (VString updatedAt).
Proof.
  entity_field k "type" (const_schema (kind_tag k)) Hvalid v1 r1 Hv1 Er1 Hr1.
  entity_field k "id" (string_schema (Some 1) None (Some id_pattern) None)
    Hvalid v2 r2 Hv2 Er2 Hr2.
  entity_field k "title" (string_schema (Some 1) (Some 200) None None)
    Hvalid v3 r3 Hv3 Er3 Hr3.
  entity_field k "description" (string_schema None (Some 2000) None None)
    Hvalid v4 r4 Hv4 Er4 Hr4.
  entity_field k "status" (createEnumSchema (statuses k))
    Hvalid v5 r5 Hv5 Er5 Hr5.
  entity_field k "priority" (createEnumSchema PRIORITIES)
    Hvalid v6 r6 Hv6 Er6 Hr6.
  entity_field k "createdAt"
    (string_schema None None None (Some "date-time"))
    Hvalid v7 r7 Hv7 Er7 Hr7.
  entity_field k "updatedAt"
    (string_schema None None None (Some "date-time"))
    Hvalid v8 r8 Hv8 Er8 Hr8.
  pose proof (const_field_valid _ _ _ _ Er1 Hr1) as Htag.
  destruct (string_field_valid _ _ _ _ _ _ _ Er2 Hr2)
    as [id [-> [Hidmin [_ Hidpat]]]].
  destruct (Hidpat id_pattern eq_refl) as [test [Hre Htest]].
  destruct (string_field_valid _ _ _ _ _ _ _ Er3 Hr3)
    as [title [-> [Htmin [Htmax _]]]].
  destruct (string_field_valid _ _ _ _ _ _ _ Er4 Hr4)
    as [description [-> [_ [Hdmax _]]]].
  destruct (enum_field_valid _ _ _ _ Er5 Hr5) as [status [-> Hstatus]].
  destruct (enum_field_valid _ _ _ _ Er6 Hr6) as [priority [-> Hpriority]].
  destruct (string_field_valid _ _ _ _ _ _ _ Er7 Hr7) as [createdAt [-> _]].
  destruct (string_field_valid _ _ _ _ _ _ _ Er8 Hr8) as [updatedAt [-> _]].
  subst v1.
  exists id, title, description, status, priority, createdAt, updatedAt, test.
  repeat (split; [ assumption | ]).
  split; [ intros ->; specialize (Hidmin 1 eq_refl); simpl in Hidmin; lia | ].
  split; [ exact Hv3 | ].
  split; [ split; [ exact (Htmin 1 eq_refl) | exact (Htmax 200 eq_refl) ] | ].
  split; [ exact Hv4 | ].
  split; [ exact (Hdmax 2000 eq_refl) | ].
  repeat (split; [ assumption | ]). assumption.
Qed.

Lemma boolean_field_valid (v : value) (fieldName : string)
  (r : ValidationResult) :
  validateField v boolean_schema fieldName = Normal r ->
  valid r = true -> exists b, v = VBoolean b.
Proof.
  destruct v as [ | | b | n | s | l | es]; intros Er Hr;
    try (apply Normal_inj in Er; subst r; discriminate Hr).
  exists b. reflexivity.
Qed.

Lemma criteria_field_valid (v : value) (fieldName : string)
  (r : ValidationResult) :
  validateField v
    (array_schema (string_schema (Some 1) None None None) (Some 1) false)
    fieldName = Normal r ->
  valid r = true ->
  exists ss, v = VArray (map VString ss)
             /\ ss <> [] /\ Forall (fun s => s <> "") ss.
Proof.
  intros Er Hr.
  destruct (criteria_field_accepts v fieldName) as [_ [_ [r' [Er' Hr']]]].
  rewrite Er in Er'. apply Normal_inj in Er'. subst r'.
  apply Hr'. exact Hr.
Qed.

(** X15.  Beyond the shared fields, a record the engine finds valid has: as
    a feature, a non-empty array of non-empty strings as
    [acceptanceCriteria]; as a bug, a [severity] of the list, a boolean
    [reproducible], a non-empty array of non-empty strings as
    [stepsToReproduce] and a non-empty [environment]; as a task, an array
    of pairwise distinct strings matching the identifier pattern as
    [subtasks]. *)
Theorem valid_entity_own_fields (k : Kind) (es : list (string * value))
  (Hvalid : validate (VObject es) (schema_of k) = Normal (mkResult true [])) :
  match k with
  | Feature =>
      exists criteria,
        lookup "acceptanceCriteria" es = Some (VArray (map VString criteria))
        /\ criteria <> [] /\ Forall (fun s => s <> "") criteria
  | Bug =>
      exists severity reproducible steps environment,
        lookup "severity" es = Some (VString severity)
        /\ In severity SEVERITIES
        /\ lookup "reproducible" es = Some (VBoolean reproducible)
        /\ lookup "stepsToReproduce" es = Some (VArray (map VString steps))
        /\ steps <> [] /\ Forall (fun s => s <> "") steps
        /\ lookup "environment" es = Some (VString environment)
        /\ environment <> ""
  | Task =>
      exists ids test,
        lookup "subtasks" es = Some (VArray (map VString ids))
        /\ NoDup ids
        /\ RegExp id_pattern = inr test
        /\ Forall (fun s => test s = true) ids
  end.
Proof.
  destruct k.
  - destruct (valid_record_lookup FEATURE_SCHEMA
                (array_schema (string_schema (Some 1) None None None)
                   (Some 1) false)
                es "acceptanceCriteria" eq_refl Hvalid)
      as [v [r [Hv [Er Hr]]]];
      [ simpl; tauto | reflexivity | reflexivity | ].
    destruct (criteria_field_valid _ _ _ Er Hr) as [ss [-> [Hne Hss]]].
    exists ss. split; [ exact Hv | ]. split; assumption.
  - destruct (valid_record_lookup BUG_SCHEMA (createEnumSchema SEVERITIES)
                es "severity" eq_refl Hvalid) as [v1 [r1 [Hv1 [Er1 Hr1]]]];
      [ simpl; tauto | reflexivity | reflexivity | ].
    destruct (valid_record_lookup BUG_SCHEMA boolean_schema
                es "reproducible" eq_refl Hvalid) as [v2 [r2 [Hv2 [Er2 Hr2]]]];
      [ simpl; tauto | reflexivity | reflexivity | ].
    destruct (valid_record_lookup BUG_SCHEMA
                (array_schema (string_schema (Some 1) None None None)
                   (Some 1) false)
                es "stepsToReproduce" eq_refl Hvalid)
      as [v3 [r3 [Hv3 [Er3 Hr3]]]];
      [ simpl; tauto | reflexivity | reflexivity | ].
    destruct (valid_record_lookup BUG_SCHEMA
                (string_schema (Some 1) None None None)
                es "environment" eq_refl Hvalid)
      as [v4 [r4 [Hv4 [Er4 Hr4]]]];
      [ simpl; tauto | reflexivity | reflexivity | ].
    destruct (enum_field_valid _ _ _ _ Er1 Hr1) as [severity [-> Hsev]].
    destruct (boolean_field_valid _ _ _ Er2 Hr2) as [reproducible ->].
    destruct (criteria_field_valid _ _ _ Er3 Hr3) as [steps [-> [Hne Hss]]].
    destruct (string_field_valid _ _ _ _ _ _ _ Er4 Hr4)
      as [environment [-> [Hmin _]]].
    exists severity, reproducible, steps, environment.
    repeat (split; [ assumption | ]).
    intros ->. specialize (Hmin 1 eq_refl). simpl in Hmin. lia.
  - destruct (valid_record_lookup TASK_SCHEMA
                (string_schema (Some 1) None (Some id_pattern) None)
                es "id" eq_refl Hvalid) as [v1 [r1 [Hv1 [Er1 Hr1]]]];
      [ simpl; tauto | reflexivity | reflexivity | ].
    destruct (string_field_valid _ _ _ _ _ _ _ Er1 Hr1)
      as [id [_ [_ [_ Hpat]]]].
    destruct (Hpat id_pattern eq_refl) as [test [Hre _]].
    destruct (property TASK_SCHEMA "subtasks") as [sub | ] eqn:Esub;
      [ | discriminate Esub ].
    destruct (valid_record_lookup TASK_SCHEMA sub es "subtasks" eq_refl
                Hvalid) as [v2 [r2 [Hv2 [Er2 Hr2]]]];
      [ simpl; tauto | reflexivity | exact Esub | ].
    destruct (subtasks_field_accepts sub test v2 "subtasks" Esub Hre)
      as [r' [Er' Hr']].
    rewrite Er2 in Er'. apply Normal_inj in Er'. subst r'.
    apply Hr' in Hr2. destruct Hr2 as [ids [-> [Hnd Hids]]].
    exists ids, test. repeat (split; [ assumption | ]). assumption.
Qed.

(** ** Nested records and the project aggregate *)

Lemma coherent_valid (r : ValidationResult) :
  coherent r -> valid r = true -> r = mkResult true [].
Proof.
  intros Hc Hv. destruct r as [b errs]. simpl in Hv. subst b.
  f_equal. apply Hc. reflexivity.
Qed.

Lemma validate_object_schema (v : value) (schema : Schema) :
  type schema = TypeName "object" ->
  validate v schema = validateSchema v schema.
Proof.
  intros Ht. unfold validate. rewrite (type_is_name _ _ Ht). reflexivity.
Qed.

Lemma object_field_errors (v : value) (schema : Schema) (fieldName : string) :
  type schema = TypeName "object" -> enum schema = None ->
  const schema = VUndefined -> is_record v = true ->
  validateField v schema fieldName
  = (nestedResult <- validateSchema v schema ;;
     Normal (result_of (map (fun error => fieldName ++ "." ++ error)
                          (errors nestedResult)))).
Proof.
  intros Ht He Hc Hrec. rewrite validateField_unfold.
  unfold validateField_with, allows_null, type_mismatch, expectedType,
    string_part, number_part, array_part, object_part, enum_check,
    const_check, type_is, validateSchema.
  rewrite He, Hc, Ht, Hrec.
  destruct v as [ | | b | n | s | l | es]; try discriminate Hrec; simpl;
    match goal with
    | |- context [validateSchema_with ?f ?v ?s] =>
        destruct (validateSchema_with f v s)
    end; reflexivity.
Qed.

Lemma object_field_mismatch (v : value) (schema : Schema)
  (fieldName : string) :
  type schema = TypeName "object" -> (typeof v =? "object") = false ->
  validateField v schema fieldName
  = Normal (mkResult false
              [fieldName ++ ": Expected object, got " ++ typeof v]).
Proof.
  intros Ht Hv. rewrite validateField_unfold.
  unfold validateField_with, allows_null, type_mismatch, expectedType.
  rewrite Ht. simpl. rewrite Hv. reflexivity.
Qed.

Lemma validateSchema_mismatch (v : value) (schema : Schema) :
  type schema = TypeName "object" -> (typeof v =? "object") = false ->
  validateSchema v schema
  = Normal (mkResult false ["Expected type object, got " ++ typeof v]).
Proof.
  intros Ht Hv. unfold validateSchema, validateSchema_with, is_record,
    typeof_differs, type_text.
  rewrite Ht, Hv, andb_false_r. reflexivity.
Qed.

Lemma nested_field_agrees (v : value) (schema : Schema) (fieldName : string) :
  type schema = TypeName "object" -> enum schema = None ->
  const schema = VUndefined ->
  (exists r, validateField v schema fieldName = Normal r /\ valid r = true)
  <-> validate v schema = Normal (mkResult true []).
Proof.
  intros Ht He Hc. rewrite (validate_object_schema _ _ Ht).
  destruct (is_record v) eqn:Hrec.
  - rewrite (object_field_errors _ _ _ Ht He Hc Hrec).
    destruct (validateSchema v schema) as [r | e] eqn:Ev; simpl.
    + pose proof (validateSchema_coherent _ _ _ Ev) as Hco. split.
      * intros [r' [Er' Hr']]. apply Normal_inj in Er'. subst r'.
        apply result_of_valid_iff in Hr'. apply map_eq_nil in Hr'.
        f_equal. apply (coherent_valid _ Hco). apply Hco. exact Hr'.
      * intros H. apply Normal_inj in H. subst r. simpl.
        eexists. split; reflexivity.
    + split; [ intros [r' [Er' _]]; discriminate Er' | discriminate ].
  - destruct (typeof v =? "object") eqn:Etype.
    + assert (v = VNull) as ->
        by (destruct v; try discriminate Etype; try discriminate Hrec;
            reflexivity).
      split; intros _.
      * unfold validateSchema, validateSchema_with, typeof_differs.
        rewrite (type_is_name _ _ Ht), Ht. reflexivity.
      * rewrite validateField_unfold.
        unfold validateField_with, allows_null, type_mismatch, expectedType,
          object_part, enum_check, const_check.
        rewrite Ht, He, Hc, (type_is_name _ _ Ht). simpl.
        eexists. split; reflexivity.
    + rewrite (object_field_mismatch _ _ _ Ht Etype),
        (validateSchema_mismatch _ _ Ht Etype).
      split.
      * intros [r [Er Hr]]. apply Normal_inj in Er. subst r. discriminate Hr.
      * intros H. apply Normal_inj in H. discriminate H.
Qed.

(** X16.  Against an object-schema with neither [enum] nor [const], a value
    passes as a nested field, under any label, exactly when it passes at
    top level: the nested-object block of [validateField] and [validate]
    accept the same values, [null] among them. *)
Theorem nested_validation_agrees (v : value) (schema : Schema)
  (fieldName : string)
  (Ht : type schema = TypeName "object")
  (He : enum schema = None) (Hc : const schema = VUndefined) :
  (exists r, validateField v schema fieldName = Normal r /\ valid r = true)
  <-> validate v schema = Normal (mkResult true []).
Proof. exact (nested_field_agrees v schema fieldName Ht He Hc). Qed.

Lemma array_items_valid (schema itemSchema : Schema) (v : value)
  (fieldName : string) (r : ValidationResult) :
  type schema = TypeName "array" -> items schema = Some itemSchema ->
  enum schema = None -> const schema = VUndefined ->
  validateField v schema fieldName = Normal r -> valid r = true ->
  exists l, v = VArray l
            /\ forall x, In x l ->
                 exists label r', validateField x itemSchema label = Normal r'
                                  /\ valid r' = true.
Proof.
  intros Ht Hi He Hc Er Hr.
  destruct v as [ | | b | n | s | l | es];
    try (rewrite array_field_mismatch in Er by (assumption || reflexivity);
         apply Normal_inj in Er; subst r; discriminate Hr).
  exists l. split; [ reflexivity | ].
  rewrite (array_field_errors _ _ _ _ Ht Hi He Hc) in Er.
  match type of Er with
  | context [for_elements ?f l 0] =>
      set (step := f) in *;
      destruct (for_elements step l 0) as [elems | ] eqn:Eelems
  end; [ | discriminate Er ].
  simpl in Er. apply Normal_inj in Er. subst r.
  apply result_of_valid_iff in Hr. apply app_eq_nil in Hr.
  destruct Hr as [_ ->].
  intros x Hx. apply In_nth_error in Hx. destruct Hx as [j Hj].
  pose proof (proj1 (for_elements_silent step l 0) Eelems j x Hj) as Hs.
  unfold step in Hs.
  destruct (validateField x itemSchema _) as [r' | ] eqn:Er';
    [ | discriminate Hs ].
  simpl in Hs. apply Normal_inj in Hs.
  eexists. exists r'. split; [ exact Er' | ].
  apply (validateField_coherent _ _ _ _ Er'). exact Hs.
Qed.

Lemma project_items_valid (k : Kind) (name : string)
  (es : list (string * value)) :
  validate (VObject es) PROJECT_DATA_SCHEMA = Normal (mkResult true []) ->
  In name (required_names PROJECT_DATA_SCHEMA) ->
  property PROJECT_DATA_SCHEMA name = Some (items_only (schema_of k)) ->
  exists l, lookup name es = Some (VArray l)
            /\ forall x, In x l -> validateKind k x = Normal true.
Proof.
  intros Hvalid Hreq Hprop.
  destruct (valid_record_lookup PROJECT_DATA_SCHEMA
              (items_only (schema_of k)) es name eq_refl Hvalid Hreq)
    as [v [r [Hv [Er Hr]]]]; [ | exact Hprop | ].
  { simpl in Hreq.
    repeat (destruct Hreq as [<- | Hreq]; [ reflexivity | ]).
    contradiction. }
  destruct (array_items_valid (items_only (schema_of k)) (schema_of k) v
              name r eq_refl eq_refl eq_refl eq_refl Er Hr) as [l [-> Hl]].
  exists l. split; [ exact Hv | ].
  intros x Hx. destruct (Hl x Hx) as [label [r' [Er' Hr']]].
  assert (Hx' : validate x (schema_of k) = Normal (mkResult true [])).
  { apply (nested_field_agrees x (schema_of k) label);
      [ apply entity_is_object | destruct k; reflexivity
      | destruct k; reflexivity | eauto ]. }
  destruct k; unfold validateKind, validateFeature, validateBug, validateTask;
    unfold schema_of in Hx'; rewrite Hx'; reflexivity.
Qed.

(** X17.  When [validateProjectData] returns on a record, its [features],
    [bugs] and [tasks] are arrays, and every element of each, taken out on
    its own, passes the typed validator of its kind. *)
Theorem project_data_items_pass (es : list (string * value))
  (Hvalid : validateProjectData (VObject es) = Normal true) :
  exists features bugs tasks,
    lookup "features" es = Some (VArray features)
    /\ lookup "bugs" es = Some (VArray bugs)
    /\ lookup "tasks" es = Some (VArray tasks)
    /\ (forall x, In x features -> validateFeature x = Normal true)
    /\ (forall x, In x bugs -> validateBug x = Normal true)
    /\ (forall x, In x tasks -> validateTask x = Normal true).
Proof.
  assert (Hv : validate (VObject es) PROJECT_DATA_SCHEMA
               = Normal (mkResult true [])).
  { destruct (typed_validator_cases "Project data validation failed"
                (VObject es) PROJECT_DATA_SCHEMA eq_refl)
      as [[_ H] | [[errs [_ [_ H]]] | [p [msg [_ [_ H]]]]]];
      [ exact H | | ];
      simpl in H; unfold validateProjectData in Hvalid;
      rewrite H in Hvalid; discriminate Hvalid. }
  destruct (project_items_valid Feature "features" es Hv)
    as [features [Hf Hfs]]; [ simpl; tauto | reflexivity | ].
  destruct (project_items_valid Bug "bugs" es Hv)
    as [bugs [Hb Hbs]]; [ simpl; tauto | reflexivity | ].
  destruct (project_items_valid Task "tasks" es Hv)
    as [tasks [Ht Hts]]; [ simpl; tauto | reflexivity | ].
  exists features, bugs, tasks. repeat (split; [ assumption | ]). assumption.
Qed.

(** ** More on the transition tables *)

Lemma table_includes_of (k : Kind) (from to : string) :
  canTransitionKind k from to = table_includes (table_of k) from to.
Proof. destruct k; reflexivity. Qed.

Lemma table_keys (k : Kind) : map fst (table_of k) = statuses k.
Proof. destruct k; reflexivity. Qed.

Lemma table_targets (k : Kind) :
  forallb (fun e => forallb (fun to => mem to (statuses k)) (snd e))
    (table_of k) = true.
Proof. destruct k; reflexivity. Qed.

Lemma lookup_keys {A : Type} (key : string) (l : list (string * A)) :
  In key (map fst l) <-> exists a, lookup key l = Some a.
Proof.
  induction l as [ | [k a] l IH]; simpl.
  - split; [ intros [] | intros [a H]; discriminate H ].
  - destruct (String.eqb_spec k key) as [-> | Hne].
    + split; [ eauto | intros _; left; reflexivity ].
    + rewrite <- IH. split; [ intros [E | H]; [ contradiction | exact H ] | ].
      intros H. right. exact H.
Qed.

Lemma canTransition_cases (k : Kind) (from to : string) :
  (In from (statuses k)
   /\ exists next, lookup from (table_of k) = Some next
                   /\ canTransitionKind k from to = Normal (mem to next))
  \/ (~ In from (statuses k)
      /\ exists msg, canTransitionKind k from to
                     = Throw (Error "TypeError" msg)).
Proof.
  rewrite table_includes_of. unfold table_includes.
  destruct (lookup from (table_of k)) as [next | ] eqn:El.
  - left. split; [ | eauto ].
    rewrite <- table_keys. apply lookup_keys. eauto.
  - right. split.
    + rewrite <- table_keys. intros H. apply lookup_keys in H.
      destruct H as [a H]. rewrite H in El. discriminate El.
    + destruct (mem from Object_prototype_keys); eauto.
Qed.

(** X18.  A kind's transition check returns exactly when [from] is a
    status of the kind; for any other [from], a name [Object.prototype]
    defines included, it raises a TypeError instead of returning false; and
    it returns true only for a [to] that is a status of the kind. *)
Theorem canTransition_domain (k : Kind) (from to : string) :
  (In from (statuses k)
   <-> exists b, canTransitionKind k from to = Normal b)
  /\ (~ In from (statuses k)
      <-> exists msg, canTransitionKind k from to
                      = Throw (Error "TypeError" msg))
  /\ (canTransitionKind k from to = Normal true -> In to (statuses k)).
Proof.
  destruct (canTransition_cases k from to)
    as [[Hin [next [El E]]] | [Hout [msg E]]]; rewrite E.
  - split; [ split; [ eauto | intros _; exact Hin ] | ].
    split.
    + split; [ contradiction | intros [m H]; discriminate H ].
    + intros H. apply Normal_inj in H.
      pose proof (table_targets k) as Ht.
      apply lookup_In_key in El.
      apply (proj1 (forallb_forall _ _) Ht) in El. simpl in El.
      apply mem_In in H.
      apply mem_In. exact (proj1 (forallb_forall _ _) El to H).
  - split; [ split; [ contradiction | intros [b H]; discriminate H ] | ].
    split; [ split; [ eauto | intros _; exact Hout ] | discriminate ].
Qed.

Lemma reaches_sound (k : Kind) (n : nat) (from to : string) :
  In from (statuses k) -> reaches k n from to = true -> reachable k from to.
Proof.
  revert from. induction n as [ | n IH]; intros from Hin; simpl.
  - rewrite orb_false_r. intros H. apply String.eqb_eq in H. subst.
    apply reach_here. exact Hin.
  - intros H. apply orb_true_iff in H. destruct H as [H | H].
    + apply String.eqb_eq in H. subst. apply reach_here. exact Hin.
    + destruct (lookup from (table_of k)) as [next | ] eqn:El;
        [ | discriminate H ].
      apply existsb_exists in H. destruct H as [via [Hvia Hreach]].
      assert (Hstep : canTransitionKind k from via = Normal true).
      { rewrite table_includes_of. unfold table_includes. rewrite El.
        f_equal. apply mem_In. exact Hvia. }
      apply (reach_step k from via to Hstep). apply IH; [ | exact Hreach ].
      pose proof (table_targets k) as Ht.
      apply lookup_In_key in El.
      apply (proj1 (forallb_forall _ _) Ht) in El. simpl in El.
      apply mem_In. exact (proj1 (forallb_forall _ _) El via Hvia).
Qed.

Lemma completed_is_terminal (k : Kind) (s : string) :
  k <> Bug -> reachable k "completed" s -> s = "completed".
Proof.
  intros Hk H. remember "completed" as c eqn:Ec.
  induction H as [ | a b c' Hstep _ _]; [ reflexivity | ].
  subst a. exfalso. rewrite table_includes_of in Hstep.
  destruct k; [ | contradiction | ]; discriminate Hstep.
Qed.

(** X19.  Along the tables, 'completed' can be reached from every feature
    status and from every task status, and nothing else can be reached
    from it; every bug status can be reached from every other, so a bug
    has no final status. *)
Theorem transitions_reach (k : Kind) (a b : string)
  (Ha : In a (statuses k)) (Hb : In b (statuses k)) :
  match k with
  | Bug => reachable Bug a b
  | _ => reachable k a "completed"
         /\ (reachable k "completed" b -> b = "completed")
  end.
Proof.
  destruct k.
  - split; [ | apply completed_is_terminal; discriminate ].
    apply (reaches_sound Feature 4); [ exact Ha | ].
    simpl in Ha. each_status Ha; reflexivity.
  - apply (reaches_sound Bug 4); [ exact Ha | ].
    simpl in Ha, Hb. each_status Ha; each_status Hb; reflexivity.
  - split; [ | apply completed_is_terminal; discriminate ].
    apply (reaches_sound Task 4); [ exact Ha | ].
    simpl in Ha. each_status Ha; reflexivity.
Qed.

(** X20.  [canTransitionStatus] returns true only for an item whose tag is
    the tag of a kind and whose current and new status are both statuses
    of that kind; for an item of a known kind whose current status is not
    one of the kind's, it raises a TypeError. *)
Theorem canTransitionStatus_true (item : ProjectItem) (newStatus : string) :
  (canTransitionStatus item newStatus = Normal true ->
   exists k, item_type item = kind_tag k
             /\ In (item_status item) (statuses k)
             /\ In newStatus (statuses k))
  /\ (forall k, item_type item = kind_tag k ->
                ~ In (item_status item) (statuses k) ->
                exists msg, canTransitionStatus item newStatus
                            = Throw (Error "TypeError" msg)).
Proof.
  assert (Hrun : forall k, item_type item = kind_tag k ->
                   canTransitionStatus item newStatus
                   = canTransitionKind k (item_status item) newStatus).
  { intros k Hk. unfold canTransitionStatus, isFeature, isBug, isTask.
    rewrite Hk. destruct k; reflexivity. }
  split.
  - intros H.
    assert (Hk : exists k, item_type item = kind_tag k).
    { unfold canTransitionStatus, isFeature, isBug, isTask in H.
      destruct (String.eqb_spec (item_type item) "feature");
        [ exists Feature; assumption | ].
      destruct (String.eqb_spec (item_type item) "bug");
        [ exists Bug; assumption | ].
      destruct (String.eqb_spec (item_type item) "task");
        [ exists Task; assumption | discriminate H ]. }
    destruct Hk as [k Hk]. exists k. split; [ exact Hk | ].
    rewrite (Hrun k Hk) in H.
    destruct (canTransition_cases k (item_status item) newStatus)
      as [[Hin [next [El E]]] | [_ [msg E]]];
      [ | rewrite E in H; discriminate H ].
    split; [ exact Hin | ].
    rewrite E in H. apply Normal_inj in H.
    pose proof (table_targets k) as Ht.
    apply lookup_In_key in El.
    apply (proj1 (forallb_forall _ _) Ht) in El. simpl in El.
    apply mem_In in H. apply mem_In.
    exact (proj1 (forallb_forall _ _) El newStatus H).
  - intros k Hk Hout. rewrite (Hrun k Hk).
    destruct (canTransition_cases k (item_status item) newStatus)
      as [[Hin _] | [_ H]]; [ contradiction | exact H ].
Qed.

(** ** How the entity schemas are composed *)

(** X21.  Each entity schema keeps every required name and every property
    schema of the base schema unchanged, declares a property schema for
    every name it requires, and forbids additional properties; the base
    schema itself requires [status] without declaring it. *)
Theorem entity_schemas_extend_base (k : Kind) (name : string) :
  (In name (required_names BASE_ITEM_SCHEMA) ->
   In name (required_names (schema_of k)))
  /\ (forall s, property BASE_ITEM_SCHEMA name = Some s ->
                property (schema_of k) name = Some s)
  /\ (In name (required_names (schema_of k)) ->
      property (schema_of k) name <> None)
  /\ type (schema_of k) = TypeName "object"
  /\ additionalProperties (schema_of k) = Some false
  /\ In "status" (required_names BASE_ITEM_SCHEMA)
  /\ property BASE_ITEM_SCHEMA "status" = None.
Proof.
  split; [ | split; [ | split ] ].
  - intros H. destruct k; simpl in H |- *; each_status H;
      repeat (first [ left; reflexivity | right ]).
  - intros s. unfold property. simpl properties.
    cbv [lookup BASE_ITEM_properties].
    repeat match goal with
           | |- context [String.eqb ?a name] =>
               destruct (String.eqb_spec a name); [ subst name | ]
           end; try discriminate;
      intros H; injection H as <-; destruct k; reflexivity.
  - intros H. destruct k; simpl in H; each_status H; discriminate.
  - destruct k; repeat split; simpl;
      repeat (first [ left; reflexivity | right ]).
Qed.

(** ** Fields the schema does not declare, and the order of fields *)

Lemma has_property_insert_other (field key : string) (v : value)
  (pre post : list (string * value)) :
  field <> key ->
  has_property field (VObject (pre ++ (key, v) :: post))
  = has_property field (VObject (pre ++ post)).
Proof.
  intros Hne. unfold has_property, has_key.
  rewrite !existsb_app. simpl.
  destruct (String.eqb_spec key field) as [E | _];
    [ symmetry in E; contradiction | reflexivity ].
Qed.

Lemma required_errors_ext (schema : Schema) (a b : value) :
  (forall field, In field (required_names schema) ->
                 has_property field a = has_property field b) ->
  required_errors a schema = required_errors b schema.
Proof.
  unfold required_errors, required_names.
  destruct (required schema) as [req | ]; [ | reflexivity ].
  induction req as [ | f req IH]; intros H; [ reflexivity | ].
  cbn [flat_map]. rewrite (H f) by (left; reflexivity).
  rewrite IH; [ reflexivity | ].
  intros field Hf. apply H. right. exact Hf.
Qed.

(** X22.  A field that an object-schema neither declares nor requires is
    invisible to the engine: with it or without it, wherever it stands in
    the record and whatever its value, [validate] gives the same outcome,
    error list and raised error included. *)
Theorem unknown_field_invisible (schema : Schema)
  (pre post : list (string * value)) (key : string) (v : value)
  (Hobj : type schema = TypeName "object")
  (Hkey : property schema key = None)
  (Hreq : ~ In key (required_names schema)) :
  validate (VObject (pre ++ (key, v) :: post)) schema
  = validate (VObject (pre ++ post)) schema.
Proof.
  rewrite !(validate_record _ _ Hobj).
  rewrite for_entries_insert.
  - rewrite (required_errors_ext schema
               (VObject (pre ++ (key, v) :: post)) (VObject (pre ++ post)));
      [ reflexivity | ].
    intros field Hf. apply has_property_insert_other.
    intros ->. contradiction.
  - apply check_property_undeclared. intros props Hp.
    unfold property in Hkey. rewrite Hp in Hkey. exact Hkey.
Qed.

Lemma has_property_permutation (field : string)
  (es es' : list (string * value)) :
  Permutation es es' ->
  has_property field (VObject es) = has_property field (VObject es').
Proof.
  intros Hperm. unfold has_property, has_key. f_equal.
  apply eq_true_iff_eq. rewrite !existsb_exists.
  split; intros [e [Hin He]]; exists e; (split; [ | exact He ]).
  - exact (Permutation_in _ Hperm Hin).
  - exact (Permutation_in _ (Permutation_sym Hperm) Hin).
Qed.

Lemma valid_permutation (schema : Schema) (es es' : list (string * value)) :
  type schema = TypeName "object" -> Permutation es es' ->
  validate (VObject es) schema = Normal (mkResult true []) ->
  validate (VObject es') schema = Normal (mkResult true []).
Proof.
  intros Hobj Hperm Hvalid.
  apply (validate_record_valid _ _ Hobj) in Hvalid.
  destruct Hvalid as [Hfound Hmissing].
  apply (validate_record_valid _ _ Hobj). split.
  - apply for_entries_silent. apply for_entries_silent in Hfound.
    exact (Permutation_Forall Hperm Hfound).
  - rewrite <- Hmissing. apply required_errors_ext.
    intros field _. symmetry. apply has_property_permutation. exact Hperm.
Qed.

(** X23.  Whether a record is valid against an object-schema does not
    depend on the order of its fields: any rearrangement of a record the
    engine accepts is accepted, and of one it does not, is not. *)
Theorem validity_ignores_field_order (schema : Schema)
  (es es' : list (string * value))
  (Hobj : type schema = TypeName "object") (Hperm : Permutation es es') :
  validate (VObject es) schema = Normal (mkResult true [])
  <-> validate (VObject es') schema = Normal (mkResult true []).
Proof.
  split.
  - exact (valid_permutation schema es es' Hobj Hperm).
  - exact (valid_permutation schema es' es Hobj (Permutation_sym Hperm)).
Qed.


(** ** Strings, numbers and values that are no record *)


(** X26.  Under [type: 'number'] with neither [enum] nor [const], a number
    is accepted exactly when it is not below the declared minimum and not
    above the declared maximum; NaN, of which neither comparison holds, is
    accepted whatever the bounds. *)
Theorem number_bounds_accept (n : number) (schema : Schema)
  (fieldName : string)
  (Ht : type schema = TypeName "number")
  (He : enum schema = None) (Hc : const schema = VUndefined) :
  exists r,
    validateField (VNumber n) schema fieldName = Normal r
    /\ (valid r = true
        <-> (forall m, minimum schema = Some m -> Number.lt n m = false)
            /\ (forall m, maximum schema = Some m -> Number.gt n m = false))
    /\ (n = NaN -> valid r = true).
Proof.
  rewrite validateField_unfold.
  unfold validateField_with, allows_null, type_mismatch, expectedType,
    string_part, number_part, array_part, object_part, enum_check,
    const_check, type_is.
  rewrite Ht, He, Hc. simpl. rewrite !app_nil_r.
  eexists. split; [ reflexivity | ].
  rewrite result_of_valid_iff.
  assert (Hiff : number_checks n schema fieldName = []
                 <-> (forall m, minimum schema = Some m ->
                                Number.lt n m = false)
                     /\ (forall m, maximum schema = Some m ->
                                   Number.gt n m = false)).
  { unfold number_checks.
    destruct (minimum schema) as [lo | ];
      destruct (maximum schema) as [hi | ];
      repeat match goal with
             | |- context [if ?c then _ else _] => destruct c eqn:?
             end; simpl; split;
      try discriminate; try reflexivity;
      try (intros _; split; intros m Hm; try discriminate Hm;
           injection Hm as <-; assumption);
      intros [Hlo Hhi];
      try (specialize (Hlo lo eq_refl); congruence);
      try (specialize (Hhi hi eq_refl); congruence). }
  split; [ exact Hiff | ].
  intros ->. apply Hiff. split; intros m _; [ reflexivity | ].
  unfold Number.gt. destruct m as [ | [ | ] | q]; reflexivity.
Qed.

(** X27.  A value that is no object at all (a string, a number, a boolean,
    [undefined]) is rejected by every typed validator with the single
    error 'Expected type object, got <typeof>'; the missing required
    fields are not reported. *)
Theorem primitive_rejected (k : Kind) (v : value)
  (Hv : (typeof v =? "object") = false) :
  validate v (schema_of k)
  = Normal (mkResult false ["Expected type object, got " ++ typeof v])
  /\ validateKind k v
     = Throw (ValidationError (failure_message k)
                ["Expected type object, got " ++ typeof v]).
Proof.
  assert (Hval : validate v (schema_of k)
                 = Normal (mkResult false
                             ["Expected type object, got " ++ typeof v])).
  { rewrite (validate_object_schema _ _ (entity_is_object k)).
    apply validateSchema_mismatch; [ apply entity_is_object | exact Hv ]. }
  split; [ exact Hval | ].
  destruct k; unfold validateKind, validateFeature, validateBug, validateTask;
    unfold schema_of in Hval; rewrite Hval; reflexivity.
Qed.

End Engine.

(** ** The sample runtime: concrete runs *)

Import Sample.

(** C3.  The [epic] property of the feature schema and the [resolution]
    property of the bug schema declare [minLength: 1] under the type list
    ['string', 'null'].  The string checks run under [schema.type ===
    'string'] only, so the empty string passes as [epic], on every runtime,
    where the same constraints under [type: 'string'] report it; a feature
    with an empty [epic] validates. *)
Theorem empty_epic_passes :
  property FEATURE_SCHEMA "epic" = Some (nullable_string_schema (Some 1))
  /\ property BUG_SCHEMA "resolution" = Some (nullable_string_schema (Some 1))
  /\ (forall RegExp Number_toString,
         validateField RegExp Number_toString (VString "")
           (nullable_string_schema (Some 1)) "epic"
         = Normal (mkResult true []))
  /\ (forall RegExp Number_toString,
         validateField RegExp Number_toString (VString "")
           (string_schema (Some 1) None None None) "epic"
         = Normal (mkResult false ["epic: Minimum length is 1"]))
  /\ validateFeature sample_RegExp sample_Number_toString featureWithEmptyEpic
     = Normal true.
Proof.
  repeat split.
Qed.

Example createStoryPoints_tests :
  createStoryPoints (of_Z 1) = Normal (of_Z 1)
  /\ createStoryPoints (of_Z 13) = Normal (of_Z 13)
  /\ createStoryPoints (of_Z 21) = Normal (of_Z 21)
  /\ createStoryPoints (of_Z 0)
     = Throw (Error "Error" "Story points must be between 1 and 21")
  /\ createStoryPoints (of_Z 22)
     = Throw (Error "Error" "Story points must be between 1 and 21")
  /\ createStoryPoints (of_Z (-1))
     = Throw (Error "Error" "Story points must be between 1 and 21").
Proof. repeat split. Qed.

(** neither comparison of the guard holds of NaN *)
Example createStoryPoints_NaN : createStoryPoints NaN = Normal NaN.
Proof. reflexivity. Qed.

Example validate_simple_object_schema :
  let schema :=
    object_schema ["name"] [("name", string_schema None None None None)] in
  validate sample_RegExp sample_Number_toString
    (VObject [("name", VString "test")]) schema
  = Normal (mkResult true [])
  /\ validate sample_RegExp sample_Number_toString (VObject []) schema
     = Normal (mkResult false ["Missing required field: name"]).
Proof. split; reflexivity. Qed.

Example validate_entities :
  validateFeature sample_RegExp sample_Number_toString validFeature
  = Normal true
  /\ validateBug sample_RegExp sample_Number_toString validBug = Normal true
  /\ validateTask sample_RegExp sample_Number_toString validTask = Normal true
  /\ validateProjectItem sample_RegExp sample_Number_toString validFeature
     = Normal true
  /\ validateProjectItem sample_RegExp sample_Number_toString validBug
     = Normal true
  /\ validateProjectItem sample_RegExp sample_Number_toString validTask
     = Normal true.
Proof. repeat split. Qed.

Example validateProjectItem_empty_criteria :
  validateProjectItem sample_RegExp sample_Number_toString
    featureWithoutCriteria
  = Throw (ValidationError "Feature validation failed"
             ["acceptanceCriteria: Minimum items is 1"]).
Proof. reflexivity. Qed.

Example validateProjectItem_unknown_type :
  validateProjectItem sample_RegExp sample_Number_toString
    (VObject (assign "type" (VString "unknown") featureFields))
  = Throw (ValidationError "Invalid project item type"
             ["Expected 'feature', 'bug', or 'task', got 'unknown'"]).
Proof. reflexivity. Qed.

(** a tag with no text, [{ type: { toString: 1 } }]: the message cannot be
    built, and the TypeError of the conversion is what comes out *)
Example validateProjectItem_tag_without_text :
  validateProjectItem sample_RegExp sample_Number_toString
    (VObject [("type", withoutText)])
  = Throw (Error "TypeError" "Cannot convert object to primitive value")
  /\ validateProjectItem sample_RegExp sample_Number_toString
       (VObject [("type", VObject [("valueOf", VNumber (of_Z 1))])])
     = Throw (names_tag "[object Object]").
Proof. split; reflexivity. Qed.

(** the same conversion in the enum message of the engine: it raises only
    when the value is not one of the literals *)
Example validate_enum_without_text :
  validate sample_RegExp sample_Number_toString (VString "f1-long")
    enumWithoutText
  = Throw (Error "TypeError" "Cannot convert object to primitive value")
  /\ validateField sample_RegExp sample_Number_toString (VNumber (of_Z 1))
       enumWithoutText "id"
     = Normal (mkResult false ["id: Expected string, got number"]).
Proof. split; reflexivity. Qed.

Example tryValidateTask_tests :
  tryValidateTask sample_RegExp sample_Number_toString validTask
  = mkSafe (mkResult true []) (Some validTask)
  /\ tryValidateTask sample_RegExp sample_Number_toString
       (VObject (remove_key "subtasks" taskFields))
     = mkSafe (mkResult false ["Missing required field: subtasks"]) None.
Proof. split; reflexivity. Qed.

(** a failure that is no [ValidationError]: the identifier pattern does not
    compile *)
Example tryValidateFeature_other_failure :
  tryValidateFeature failing_RegExp sample_Number_toString validFeature
  = mkSafe (mkResult false ["Invalid regular expression: /^[a-zA-Z0-9_-]+$/"])
      None.
Proof. reflexivity. Qed.

(** ** Instances of the conditional theorems *)

Lemma createStoryPoints_range_witness :
  (Number.lt (of_Z 22) (of_Z 1) || Number.gt (of_Z 22) (of_Z 21) = true
   /\ createStoryPoints (of_Z 22)
      = Throw (Error "Error" "Story points must be between 1 and 21"))
  /\ (Number.le (of_Z 1) (Finite (Qmake 3 2))
      && Number.le (Finite (Qmake 3 2)) (of_Z 21) = true
      /\ createStoryPoints (Finite (Qmake 3 2)) = Normal (Finite (Qmake 3 2))).
Proof.
  split; (split; [ reflexivity | ]).
  - apply (proj1 (createStoryPoints_range (of_Z 22))). reflexivity.
  - apply (proj2 (createStoryPoints_range (Finite (Qmake 3 2)))). reflexivity.
Defined.

Lemma null_passes_object_schemas_witness :
  type FEATURE_SCHEMA = TypeName "object"
  /\ validate sample_RegExp sample_Number_toString VNull FEATURE_SCHEMA
     = Normal (mkResult true []).
Proof.
  split; [ reflexivity | ].
  apply (proj1 (null_passes_object_schemas sample_RegExp
                  sample_Number_toString)).
  reflexivity.
Defined.

Lemma undeclared_field_ignored_witness :
  validate sample_RegExp sample_Number_toString
    (VObject (featureFields ++ [])) FEATURE_SCHEMA
  = Normal (mkResult true [])
  /\ property FEATURE_SCHEMA "storyPoints" = None
  /\ validate sample_RegExp sample_Number_toString
       (VObject (featureFields ++ [("storyPoints", VNumber (of_Z 99))]))
       FEATURE_SCHEMA
     = Normal (mkResult true []).
Proof.
  split; [ reflexivity | ]. split; [ reflexivity | ].
  apply (undeclared_field_ignored sample_RegExp sample_Number_toString
           FEATURE_SCHEMA featureFields [] "storyPoints" (VNumber (of_Z 99))).
  - reflexivity.
  - intros props H. injection H as <-. reflexivity.
  - reflexivity.
Defined.

Lemma canTransition_matches_tables_witness :
  In "backlog" (statuses Feature)
  /\ exists b, canTransitionKind Feature "backlog" "planning" = Normal b
               /\ (b = true <-> spec_transition Feature "backlog" "planning").
Proof.
  split; [ simpl; tauto | ].
  apply (canTransition_matches_tables Feature "backlog" "planning").
  simpl. tauto.
Defined.

Lemma transitions_irreflexive_witness :
  In "in-progress" (statuses Bug)
  /\ canTransitionKind Bug "in-progress" "in-progress" = Normal false.
Proof.
  split; [ simpl; tauto | ].
  apply (transitions_irreflexive Bug "in-progress"). simpl. tauto.
Defined.

Lemma canTransitionStatus_dispatch_witness :
  canTransitionStatus (mkItem "feature" "backlog") "planning"
  = canTransitionFeatureStatus "backlog" "planning"
  /\ canTransitionStatus (mkItem "bug" "closed") "open"
     = canTransitionBugStatus "closed" "open"
  /\ canTransitionStatus (mkItem "task" "todo") "completed"
     = canTransitionTaskStatus "todo" "completed"
  /\ canTransitionStatus (mkItem "epic" "open") "closed" = Normal false.
Proof.
  split; [ | split; [ | split ] ].
  - destruct (canTransitionStatus_dispatch (mkItem "feature" "backlog")
                "planning") as [H _].
    apply H. reflexivity.
  - destruct (canTransitionStatus_dispatch (mkItem "bug" "closed") "open")
      as [_ [H _]].
    apply H. reflexivity.
  - destruct (canTransitionStatus_dispatch (mkItem "task" "todo") "completed")
      as [_ [_ [H _]]].
    apply H. reflexivity.
  - destruct (canTransitionStatus_dispatch (mkItem "epic" "open") "closed")
      as [_ [_ [_ H]]].
    apply H. simpl. intuition discriminate.
Defined.

Lemma validateProjectItem_dispatch_witness :
  validateProjectItem sample_RegExp sample_Number_toString
    (VString "not an object")
  = Throw (ValidationError "Invalid project item" ["Expected object"])
  /\ validateProjectItem sample_RegExp sample_Number_toString validTask
     = validateTask sample_RegExp sample_Number_toString validTask
  /\ validateProjectItem sample_RegExp sample_Number_toString
       (VObject [("type", VString "invalid")])
     = Throw (ValidationError "Invalid project item type"
                ["Expected 'feature', 'bug', or 'task', got 'invalid'"])
  /\ validateProjectItem sample_RegExp sample_Number_toString
       (VObject [("name", VString "no tag")])
     = Throw (ValidationError "Invalid project item type"
                ["Expected 'feature', 'bug', or 'task', got 'undefined'"])
  /\ validateProjectItem sample_RegExp sample_Number_toString
       (VObject [("type", VObject [("toString", VNumber (of_Z 1))])])
     = Throw (Error "TypeError" "Cannot convert object to primitive value").
Proof.
  split; [ | split; [ | split; [ | split ] ] ].
  - destruct (validateProjectItem_dispatch sample_RegExp
                sample_Number_toString (VString "not an object")) as [H _].
    apply H. reflexivity.
  - destruct (validateProjectItem_dispatch sample_RegExp
                sample_Number_toString validTask) as [_ H].
    destruct (H eq_refl) as [_ [_ [Htask _]]].
    apply Htask. reflexivity.
  - destruct (validateProjectItem_dispatch sample_RegExp
                sample_Number_toString
                (VObject [("type", VString "invalid")])) as [_ H].
    destruct (H eq_refl) as [_ [_ [_ Hother]]].
    destruct Hother as [Hstring _].
    + simpl. intros [E | [E | [E | []]]]; discriminate E.
    + apply (Hstring "invalid"). reflexivity.
  - destruct (validateProjectItem_dispatch sample_RegExp
                sample_Number_toString
                (VObject [("name", VString "no tag")])) as [_ H].
    destruct (H eq_refl) as [_ [_ [_ Hother]]].
    destruct Hother as [_ [Habsent _]].
    + simpl. intros [E | [E | [E | []]]]; discriminate E.
    + apply Habsent. reflexivity.
  - destruct (validateProjectItem_dispatch sample_RegExp
                sample_Number_toString
                (VObject [("type", VObject [("toString", VNumber (of_Z 1))])]))
      as [_ H].
    destruct (H eq_refl) as [_ [_ [_ Hother]]].
    destruct Hother as [_ [_ [_ [_ [_ [_ [_ Hobject]]]]]]].
    + simpl. intros [E | [E | [E | []]]]; discriminate E.
    + apply (Hobject [("toString", VNumber (of_Z 1))]); reflexivity.
Defined.

Lemma missing_required_field_witness :
  sample_RegExp id_pattern = inr test_id
  /\ In "subtasks" (required_names TASK_SCHEMA)
  /\ validate sample_RegExp sample_Number_toString
       (VObject (remove_key "subtasks" taskFields)) TASK_SCHEMA
     = Normal (mkResult false ["Missing required field: subtasks"]).
Proof.
  split; [ reflexivity | ]. split; [ simpl; tauto | ].
  apply (missing_required_field sample_RegExp sample_Number_toString Task
           "subtasks" test_id).
  - reflexivity.
  - simpl. tauto.
  - reflexivity.
Defined.

(** ** Instances of the further theorems *)

Lemma createHours_range_witness :
  createHours (of_Z (-1)) = Throw (Error "Error" "Hours must be non-negative")
  /\ createHours (Finite (Qmake 17 2)) = Normal (Finite (Qmake 17 2))
  /\ createHours (Infinity false) = Normal (Infinity false).
Proof.
  split; [ | split ].
  - destruct (createHours_range (of_Z (-1))) as [H _]. apply H. reflexivity.
  - destruct (createHours_range (Finite (Qmake 17 2))) as [_ H].
    apply H. reflexivity.
  - destruct (createHours_range (Infinity false)) as [_ H].
    apply H. reflexivity.
Defined.

Lemma results_coherent_witness :
  valid (mkResult false ["Missing required field: name"]) = true
  <-> errors (mkResult false ["Missing required field: name"]) = [].
Proof.
  destruct (results_coherent sample_RegExp sample_Number_toString
              (VObject [])
              (object_schema ["name"]
                 [("name", string_schema None None None None)]) "value")
    as [_ H].
  apply H. reflexivity.
Defined.

Lemma errors_carry_label_witness :
  Forall (labelled "tags")
    [ "tags[1]: Expected string, got number";
      "tags[2]: Minimum length is 1" ].
Proof.
  destruct (errors_carry_label sample_RegExp sample_Number_toString
              (VArray [VString "a"; VNumber (of_Z 1); VString ""])
              (array_schema (string_schema (Some 1) None None None)
                 None false)) as [H _].
  apply (H "tags"
           (mkResult false [ "tags[1]: Expected string, got number";
                             "tags[2]: Minimum length is 1" ])).
  reflexivity.
Defined.

Lemma engine_raises_syntax_or_type_errors_witness :
  syntax_error failing_RegExp
    (Error "SyntaxError" "Invalid regular expression: /^[a-zA-Z0-9_-]+$/")
  /\ (validateField sample_RegExp sample_Number_toString (VString "f1")
        enumWithoutText "id"
      = Throw (Error "TypeError" "Cannot convert object to primitive value")
      /\ (syntax_error sample_RegExp
            (Error "TypeError" "Cannot convert object to primitive value")
          \/ Error "TypeError" "Cannot convert object to primitive value"
             = Error "TypeError" "Cannot convert object to primitive value")).
Proof.
  split; [ | split; [ reflexivity | ] ].
  - destruct (engine_raises_syntax_or_type_errors failing_RegExp
                sample_Number_toString validTask TASK_SCHEMA "value"
                (Error "SyntaxError"
                   "Invalid regular expression: /^[a-zA-Z0-9_-]+$/"))
      as [_ [_ H]].
    apply H; reflexivity.
  - destruct (engine_raises_syntax_or_type_errors sample_RegExp
                sample_Number_toString (VString "f1") enumWithoutText "id"
                (Error "TypeError"
                   "Cannot convert object to primitive value"))
      as [H _].
    apply H. reflexivity.
Defined.

Lemma validate_returns_for_sound_schema_witness :
  patterns_compile sample_RegExp PROJECT_DATA_SCHEMA = true
  /\ literals_convert sample_Number_toString PROJECT_DATA_SCHEMA = true
  /\ exists r,
       validate sample_RegExp sample_Number_toString
         (VArray [VNull; VString "x"]) PROJECT_DATA_SCHEMA = Normal r.
Proof.
  split; [ reflexivity | ]. split; [ reflexivity | ].
  apply (validate_returns_for_sound_schema sample_RegExp
           sample_Number_toString); reflexivity.
Defined.

Lemma string_schema_accepts_witness :
  exists r,
    validateField sample_RegExp sample_Number_toString (VString "f1")
      (string_schema (Some 1) None (Some id_pattern) None) "id" = Normal r
    /\ (valid r = true
        <-> exists s,
              VString "f1" = VString s
              /\ (forall m, Some 1 = Some m -> m <= String.length s)
              /\ (forall m, @None nat = Some m -> String.length s <= m)
              /\ (Some id_pattern <> None -> test_id s = true)).
Proof.
  apply (string_schema_accepts sample_RegExp sample_Number_toString
           (Some 1) None (Some id_pattern) None test_id (VString "f1") "id").
  intros p Hp. injection Hp as <-. reflexivity.
Defined.

Lemma subtasks_schema_accepts_witness :
  exists r,
    validateField sample_RegExp sample_Number_toString
      (VArray [VString "t2"; VString "t2"]) subtasksSchema "subtasks"
    = Normal r
    /\ (valid r = true
        <-> exists ids,
              VArray [VString "t2"; VString "t2"] = VArray (map VString ids)
              /\ NoDup ids /\ Forall (fun s => test_id s = true) ids).
Proof.
  apply (subtasks_schema_accepts sample_RegExp sample_Number_toString
           subtasksSchema test_id); reflexivity.
Defined.

Lemma valid_entity_base_fields_witness :
  exists (id title description status priority createdAt updatedAt : string)
         (test : string -> bool),
    lookup "type" bugFields = Some (VString (kind_tag Bug))
    /\ lookup "id" bugFields = Some (VString id)
    /\ sample_RegExp id_pattern = inr test /\ test id = true /\ id <> ""
    /\ lookup "title" bugFields = Some (VString title)
    /\ 1 <= String.length title <= 200
    /\ lookup "description" bugFields = Some (VString description)
    /\ String.length description <= 2000
    /\ lookup "status" bugFields = Some (VString status)
    /\ In status (statuses Bug)
    /\ lookup "priority" bugFields = Some (VString priority)
    /\ In priority PRIORITIES
    /\ lookup "createdAt" bugFields = Some (VString createdAt)
    /\ lookup "updatedAt" bugFields = Some (VString updatedAt).
Proof.
  apply (valid_entity_base_fields sample_RegExp sample_Number_toString Bug
           bugFields).
  reflexivity.
Defined.

Lemma valid_entity_own_fields_witness :
  exists criteria,
    lookup "acceptanceCriteria" featureFields
    = Some (VArray (map VString criteria))
    /\ criteria <> [] /\ Forall (fun s => s <> "") criteria.
Proof.
  apply (valid_entity_own_fields sample_RegExp sample_Number_toString
           Feature featureFields).
  reflexivity.
Defined.

Lemma nested_validation_agrees_witness :
  (exists r,
      validateField sample_RegExp sample_Number_toString validTask
        TASK_SCHEMA "tasks[0]" = Normal r /\ valid r = true)
  <-> validate sample_RegExp sample_Number_toString validTask TASK_SCHEMA
      = Normal (mkResult true []).
Proof.
  apply (nested_validation_agrees sample_RegExp sample_Number_toString
           validTask TASK_SCHEMA "tasks[0]"); reflexivity.
Defined.

Lemma project_data_items_pass_witness :
  exists features bugs tasks,
    lookup "features" validProjectData = Some (VArray features)
    /\ lookup "bugs" validProjectData = Some (VArray bugs)
    /\ lookup "tasks" validProjectData = Some (VArray tasks)
    /\ (forall x, In x features ->
          validateFeature sample_RegExp sample_Number_toString x
          = Normal true)
    /\ (forall x, In x bugs ->
          validateBug sample_RegExp sample_Number_toString x = Normal true)
    /\ (forall x, In x tasks ->
          validateTask sample_RegExp sample_Number_toString x = Normal true).
Proof.
  apply (project_data_items_pass sample_RegExp sample_Number_toString
           validProjectData).
  reflexivity.
Defined.

Lemma transitions_reach_witness : reachable Bug "closed" "wont-fix".
Proof.
  apply (transitions_reach Bug "closed" "wont-fix");
    simpl; repeat (first [ left; reflexivity | right ]).
Defined.

Lemma unknown_field_invisible_witness :
  validate sample_RegExp sample_Number_toString
    (VObject ([("id", VString "")] ++ [("storyPoints", VNull)] ++ []))
    FEATURE_SCHEMA
  = validate sample_RegExp sample_Number_toString
      (VObject ([("id", VString "")] ++ [])) FEATURE_SCHEMA.
Proof.
  apply (unknown_field_invisible sample_RegExp sample_Number_toString
           FEATURE_SCHEMA [("id", VString "")] [] "storyPoints" VNull).
  - reflexivity.
  - reflexivity.
  - simpl. intros H.
    repeat (destruct H as [H | H]; [ discriminate H | ]). exact H.
Defined.

Lemma validity_ignores_field_order_witness :
  validate sample_RegExp sample_Number_toString (VObject taskFields)
    TASK_SCHEMA = Normal (mkResult true [])
  <-> validate sample_RegExp sample_Number_toString
        (VObject (rev taskFields)) TASK_SCHEMA = Normal (mkResult true []).
Proof.
  apply (validity_ignores_field_order sample_RegExp sample_Number_toString
           TASK_SCHEMA taskFields (rev taskFields)).
  - reflexivity.
  - apply Permutation_rev.
Defined.



Lemma number_bounds_accept_witness :
  exists r,
    validateField sample_RegExp sample_Number_toString (VNumber NaN)
      hoursSchema "estimatedHours" = Normal r
    /\ (valid r = true
        <-> (forall m, minimum hoursSchema = Some m ->
                       Number.lt NaN m = false)
            /\ (forall m, maximum hoursSchema = Some m ->
                          Number.gt NaN m = false))
    /\ (NaN = NaN -> valid r = true).
Proof.
  apply (number_bounds_accept sample_RegExp sample_Number_toString NaN
           hoursSchema "estimatedHours"); reflexivity.
Defined.

Lemma primitive_rejected_witness :
  validate sample_RegExp sample_Number_toString (VString "not an object")
    FEATURE_SCHEMA
  = Normal (mkResult false ["Expected type object, got string"])
  /\ validateFeature sample_RegExp sample_Number_toString
       (VString "not an object")
     = Throw (ValidationError "Feature validation failed"
                ["Expected type object, got string"]).
Proof.
  apply (primitive_rejected sample_RegExp sample_Number_toString Feature
           (VString "not an object")).
  reflexivity.
Defined.
